(** * The dialog package and the GopherJS packager of fyne, in Rocq

    A shallow embedding of [cmd/fyne/internal/commands/package-gopherjs.go]
    (the packager) and of the dialog base it is shipped with: [dialog],
    [themedBackground] and [dialogLayout].

    - [float32] values are IEEE-754 binary32 numbers ([spec_float] at
      precision 24, [emax] 128); every formula keeps Go's evaluation order.
    - Canvas objects, pop-ups and buttons live in a store ([World]); the Go
      pointers of the source are references into it, [None] being [nil].
    - A Go panic (nil dereference, index out of range) is the result [None].
    - [func(bool)] and [func()] values are Rocq functions on the store. *)

From Stdlib Require Import ZArith Floats.SpecFloat.
From stdpp Require Import gmap strings list.

Open Scope Z_scope.

(** ** float32 *)

Module Float32.

Definition prec : Z := 24.
Definition emax : Z := 128.

Definition float32 : Type := spec_float.

Definition add : float32 -> float32 -> float32 := SFadd prec emax.
Definition sub : float32 -> float32 -> float32 := SFsub prec emax.
Definition mul : float32 -> float32 -> float32 := SFmul prec emax.
Definition div : float32 -> float32 -> float32 := SFdiv prec emax.
Definition neg : float32 -> float32 := SFopp.
Definition eqb : float32 -> float32 -> bool := SFeqb.

(** An integer constant converted to [float32] (round to nearest even). *)
Definition of_Z (z : Z) : float32 := binary_normalize prec emax z 0 false.

Definition zero : float32 := S754_zero false.

End Float32.

Import Float32.

Declare Scope f32_scope.
Delimit Scope f32_scope with f32.
Infix "+" := add : f32_scope.
Infix "-" := sub : f32_scope.
Infix "*" := mul : f32_scope.
Infix "/" := div : f32_scope.
Notation "- x" := (neg x) : f32_scope.

(** ** Geometry: [fyne.Size] and [fyne.Position] *)

Module fyne.

Record Size : Type := { Width : float32; Height : float32 }.
Record Position : Type := { X : float32; Y : float32 }.

Definition NewSize (w h : float32) : Size := {| Width := w; Height := h |}.
Definition NewPos (x y : float32) : Position := {| X := x; Y := y |}.

(** Modelled from the spec: [fyne.Size.IsZero] is not part of the excerpt;
    the spec reads a desired size of zero as "use natural size".  Both
    components are compared with [0] the way Go's [==] on [float32] does. *)
Definition IsZero (s : Size) : bool :=
    eqb (Width s) zero && eqb (Height s) zero.

End fyne.

(** ** The package constants *)

Definition padWidth : Z := 32.
Definition padHeight : Z := 16.

(** ** The store *)

(** A Go pointer or non-nil interface value; [option ref] adds [nil]. *)
Abbreviation ref := nat.

(** Modelled from the spec: [fyne.CanvasObject] is an interface declared
    outside the excerpt.  An object has a position (set by [Move], read by
    [Position]), a size (set by [Resize]) and a known minimum size that
    moving and resizing leave alone. *)
Record CanvasObject : Type := {
  obj_Position : fyne.Position;
  obj_Size : fyne.Size;
  obj_MinSize : fyne.Size
}.

(** The objects handed to [container.New], in order. *)
Record Container : Type := { Objects : list (option ref) }.

(** Modelled from the spec: [widget.PopUp] is declared outside the excerpt.
    The overlay is visible or not, has the size it was last resized to, and
    counts its redraws. *)
Record PopUp : Type := {
  Content : Container;
  Visible : bool;
  innerSize : fyne.Size;
  redraws : nat
}.

(** Everything a handler can reach: canvas objects, pop-ups, the text of
    buttons, and the application's own state [U]. *)
Record World (U : Type) : Type := {
  objects : gmap ref CanvasObject;
  popups : gmap ref PopUp;
  buttons : gmap ref string;
  app : U
}.
Arguments objects {U} _.
Arguments popups {U} _.
Arguments buttons {U} _.
Arguments app {U} _.

Section Store.
Context {U : Type}.

Definition set_objects (f : gmap ref CanvasObject -> gmap ref CanvasObject)
      (w : World U) : World U :=
    {| objects := f (objects w); popups := popups w;
       buttons := buttons w; app := app w |}.

Definition set_popups (f : gmap ref PopUp -> gmap ref PopUp)
      (w : World U) : World U :=
    {| objects := objects w; popups := f (popups w);
       buttons := buttons w; app := app w |}.

Definition set_buttons (f : gmap ref string -> gmap ref string)
      (w : World U) : World U :=
    {| objects := objects w; popups := popups w;
       buttons := f (buttons w); app := app w |}.

Definition set_app (f : U -> U) (w : World U) : World U :=
    {| objects := objects w; popups := popups w;
       buttons := buttons w; app := f (app w) |}.

(** *** Methods of [fyne.CanvasObject] *)

Definition CanvasObject_get (o : option ref) (w : World U) : option CanvasObject :=
    r ← o; objects w !! r.

Definition CanvasObject_MinSize (o : option ref) (w : World U) : option fyne.Size :=
    obj_MinSize <$> CanvasObject_get o w.

Definition CanvasObject_Position (o : option ref) (w : World U) : option fyne.Position :=
    obj_Position <$> CanvasObject_get o w.

Definition CanvasObject_Size (o : option ref) (w : World U) : option fyne.Size :=
    obj_Size <$> CanvasObject_get o w.

Definition CanvasObject_Move (o : option ref) (p : fyne.Position) (w : World U)
      : option (World U) :=
    r ← o; c ← objects w !! r;
    Some (set_objects
            <[r := {| obj_Position := p; obj_Size := obj_Size c;
                      obj_MinSize := obj_MinSize c |}]> w).

Definition CanvasObject_Resize (o : option ref) (s : fyne.Size) (w : World U)
      : option (World U) :=
    r ← o; c ← objects w !! r;
    Some (set_objects
            <[r := {| obj_Position := obj_Position c; obj_Size := s;
                      obj_MinSize := obj_MinSize c |}]> w).

(** *** Methods of [widget.PopUp] *)

Definition PopUp_update (f : PopUp -> PopUp) (p : option ref) (w : World U)
      : option (World U) :=
    r ← p; pu ← popups w !! r; Some (set_popups <[r := f pu]> w).

Definition PopUp_Hide : option ref -> World U -> option (World U) :=
    PopUp_update (fun pu =>
      {| Content := Content pu; Visible := false;
         innerSize := innerSize pu; redraws := redraws pu |}).

Definition PopUp_Show : option ref -> World U -> option (World U) :=
    PopUp_update (fun pu =>
      {| Content := Content pu; Visible := true;
         innerSize := innerSize pu; redraws := redraws pu |}).

Definition PopUp_Resize (p : option ref) (s : fyne.Size)
      : World U -> option (World U) :=
    PopUp_update (fun pu =>
      {| Content := Content pu; Visible := Visible pu;
         innerSize := s; redraws := redraws pu |}) p.

Definition PopUp_Refresh : option ref -> World U -> option (World U) :=
    PopUp_update (fun pu =>
      {| Content := Content pu; Visible := Visible pu;
         innerSize := innerSize pu; redraws := S (redraws pu) |}).

(** [widget.Button.SetText] *)
Definition Button_SetText (b : option ref) (label : string) (w : World U)
      : option (World U) :=
    r ← b; _ ← buttons w !! r; Some (set_buttons <[r := label]> w).

End Store.

(** ** The dialog

    The callback of a dialog and the handlers given to [SetOnClosed] are
    functions on the store: they are not [nil], they return, and they reach
    the pop-up and the canvas objects but not the fields of the dialog
    itself. *)

Record dialog (U : Type) : Type := {
  callback : option (bool -> World U -> World U);
  title : string;
  icon : string;
  desiredSize : fyne.Size;
  win : option ref;
  bg : option ref;
  content : option ref;
  label : option ref;
  dismiss : option ref;
  parent : option ref
}.
Arguments callback {U} _.
Arguments title {U} _.
Arguments icon {U} _.
Arguments desiredSize {U} _.
Arguments win {U} _.
Arguments bg {U} _.
Arguments content {U} _.
Arguments label {U} _.
Arguments dismiss {U} _.
Arguments parent {U} _.

Section Dialog.
Context {U : Type}.

(** [theme.Padding()]: the spacing unit of the current theme. *)
Variable theme_Padding : float32.

(** [fyne.Max], declared outside the excerpt. *)
Variable fyne_Max : float32 -> float32 -> float32.

(** Minimum sizes of the objects the constructors outside the excerpt
    build: a [widget.Label] showing a text, a [canvas.Image] and the
    rectangle behind a [themedBackground]. *)
Variable Label_MinSize : string -> fyne.Size.
Variable Image_MinSize : fyne.Size.
Variable Rectangle_MinSize : fyne.Size.

(** Whether a pop-up fresh from [widget.NewModalPopUp], which is outside
    the excerpt, already counts as visible before the first [Show]. *)
Variable PopUp_starts_visible : bool.

Definition set_callback (cb : option (bool -> World U -> World U))
    (d : dialog U) : dialog U :=
  {| callback := cb; title := title d; icon := icon d;
     desiredSize := desiredSize d; win := win d; bg := bg d;
     content := content d; label := label d; dismiss := dismiss d;
     parent := parent d |}.

Definition set_desiredSize (s : fyne.Size) (d : dialog U) : dialog U :=
  {| callback := callback d; title := title d; icon := icon d;
     desiredSize := s; win := win d; bg := bg d;
     content := content d; label := label d; dismiss := dismiss d;
     parent := parent d |}.

Definition set_win (p : option ref) (d : dialog U) : dialog U :=
  {| callback := callback d; title := title d; icon := icon d;
     desiredSize := desiredSize d; win := p; bg := bg d;
     content := content d; label := label d; dismiss := dismiss d;
     parent := parent d |}.

Definition set_bg (r : option ref) (d : dialog U) : dialog U :=
  {| callback := callback d; title := title d; icon := icon d;
     desiredSize := desiredSize d; win := win d; bg := r;
     content := content d; label := label d; dismiss := dismiss d;
     parent := parent d |}.

Definition set_label (r : option ref) (d : dialog U) : dialog U :=
  {| callback := callback d; title := title d; icon := icon d;
     desiredSize := desiredSize d; win := win d; bg := bg d;
     content := content d; label := r; dismiss := dismiss d;
     parent := parent d |}.

(** *** [dialogLayout] *)

(** [func (l *dialogLayout) Layout(obj []fyne.CanvasObject, size fyne.Size)];
    [d] is [l.d]. *)
Definition dialogLayout_Layout (d : dialog U) (obj : list (option ref))
    (size : fyne.Size) (w : World U) : option (World U) :=
  w ← CanvasObject_Move (bg d) (fyne.NewPos (of_Z 0) (of_Z 0)) w;
  w ← CanvasObject_Resize (bg d) size w;
  obj3 ← obj !! 3%nat;
  btnMin ← CanvasObject_MinSize obj3 w;
  (* icon *)
  labelMin ← CanvasObject_MinSize (label d) w;
  let iconHeight :=
    (of_Z (padHeight * 2) + fyne.Height labelMin * of_Z 2 - theme_Padding)%f32 in
  obj0 ← obj !! 0%nat;
  w ← CanvasObject_Resize obj0 (fyne.NewSize iconHeight iconHeight) w;
  w ← CanvasObject_Move obj0
        (fyne.NewPos (fyne.Width size - iconHeight + theme_Padding)%f32
                     (- theme_Padding)%f32) w;
  (* buttons *)
  w ← CanvasObject_Resize obj3 btnMin w;
  w ← CanvasObject_Move obj3
        (fyne.NewPos (fyne.Width size / of_Z 2 - fyne.Width btnMin / of_Z 2)%f32
                     (fyne.Height size - of_Z padHeight - fyne.Height btnMin)%f32) w;
  (* content *)
  labelPos ← CanvasObject_Position (label d) w;
  labelMin ← CanvasObject_MinSize (label d) w;
  let contentStart :=
    (fyne.Y labelPos + fyne.Height labelMin + of_Z padHeight)%f32 in
  btnPos ← CanvasObject_Position obj3 w;
  let contentEnd := (fyne.Y btnPos - theme_Padding)%f32 in
  obj2 ← obj !! 2%nat;
  w ← CanvasObject_Move obj2
        (fyne.NewPos (of_Z (padWidth / 2))
                     (fyne.Height labelMin + of_Z padHeight)%f32) w;
  CanvasObject_Resize obj2
    (fyne.NewSize (fyne.Width size - of_Z padWidth)%f32
                  (contentEnd - contentStart)%f32) w.

(** [func (l *dialogLayout) MinSize(obj []fyne.CanvasObject) fyne.Size] *)
Definition dialogLayout_MinSize (d : dialog U) (obj : list (option ref))
    (w : World U) : option fyne.Size :=
  obj2 ← obj !! 2%nat;
  contentMin ← CanvasObject_MinSize obj2 w;
  obj3 ← obj !! 3%nat;
  btnMin ← CanvasObject_MinSize obj3 w;
  obj4 ← obj !! 4%nat;
  obj4Min ← CanvasObject_MinSize obj4 w;
  let width :=
    (fyne_Max (fyne_Max (fyne.Width contentMin) (fyne.Width btnMin))
              (fyne.Width obj4Min) + of_Z padWidth)%f32 in
  labelMin ← CanvasObject_MinSize (label d) w;
  let height :=
    (fyne.Height contentMin + fyne.Height btnMin + fyne.Height labelMin
     + theme_Padding + of_Z (padHeight * 2))%f32 in
  Some (fyne.NewSize width height).

(** Modelled from the spec: [widget.PopUp.MinSize] and the container it
    wraps are outside the excerpt.  Spec 4.1 has the dialog's minimum size be
    the one "per the layout algorithm", so the pop-up reports what the layout
    of its content computes for the content's objects. *)
Definition PopUp_MinSize
    (layoutMinSize : list (option ref) -> World U -> option fyne.Size)
    (p : option ref) (w : World U) : option fyne.Size :=
  r ← p; pu ← popups w !! r; layoutMinSize (Objects (Content pu)) w.

(** *** The operations of [Dialog] *)

Definition dialog_hideWithResponse (resp : bool) (d : dialog U) (w : World U)
    : option (World U) :=
  w ← PopUp_Hide (win d) w;
  match callback d with
  | Some cb => Some (cb resp w)
  | None => Some w
  end.

Definition dialog_Hide (d : dialog U) (w : World U) : option (World U) :=
  dialog_hideWithResponse false d w.

Definition dialog_MinSize (d : dialog U) (w : World U) : option fyne.Size :=
  PopUp_MinSize (dialogLayout_MinSize d) (win d) w.

Definition dialog_Show (d : dialog U) (w : World U) : option (World U) :=
  w ← (if negb (fyne.IsZero (desiredSize d))
       then PopUp_Resize (win d) (desiredSize d) w
       else Some w);
  PopUp_Show (win d) w.

Definition dialog_Refresh (d : dialog U) (w : World U) : option (World U) :=
  PopUp_Refresh (win d) w.

Definition dialog_Resize (size : fyne.Size) (d : dialog U) (w : World U)
    : option (dialog U * World U) :=
  let d := set_desiredSize size d in
  w ← PopUp_Resize (win d) size w;
  Some (d, w).

Definition dialog_SetDismissText (text : string) (d : dialog U) (w : World U)
    : option (World U) :=
  w ← Button_SetText (dismiss d) text w;
  PopUp_Refresh (win d) w.

(** [closed] is the [func()] handed in; the closure built here captures it
    together with the callback stored so far. *)
Definition dialog_SetOnClosed (closed : World U -> World U) (d : dialog U)
    : dialog U :=
  let originalCallback := callback d in
  set_callback
    (Some (fun response w =>
             let w := closed w in
             match originalCallback with
             | Some f => f response w
             | None => w
             end)) d.

(** *** Construction *)

Definition alloc_object (c : CanvasObject) (w : World U) : ref * World U :=
  let r := fresh (dom (objects w)) in
  (r, set_objects <[r := c]> w).

Definition new_object (min : fyne.Size) : CanvasObject :=
  {| obj_Position := fyne.NewPos zero zero;
     obj_Size := fyne.NewSize zero zero;
     obj_MinSize := min |}.

Definition newThemedBackground (w : World U) : ref * World U :=
  alloc_object (new_object Rectangle_MinSize) w.

Definition newCenterLabel (message : string) (w : World U) : ref * World U :=
  alloc_object (new_object (Label_MinSize message)) w.

(** Modelled from the spec: [widget.NewModalPopUp] is outside the excerpt.
    It allocates a new pop-up around the content it is given; the pop-up
    has not been resized or redrawn yet, and its visibility is the
    parameter [PopUp_starts_visible]. *)
Definition NewModalPopUp (c : Container) (w : World U) : ref * World U :=
  let r := fresh (dom (popups w)) in
  (r, set_popups <[r := {| Content := c; Visible := PopUp_starts_visible;
                           innerSize := fyne.NewSize zero zero;
                           redraws := 0%nat |}]> w).

Definition dialog_create (btns : option ref) (d : dialog U) (w : World U)
    : option (dialog U * World U) :=
  let '(b, w) := newThemedBackground w in
  let d := set_bg (Some b) d in
  let '(l, w) := alloc_object (new_object (Label_MinSize (title d))) w in
  let d := set_label (Some l) d in
  let '(img, w) := alloc_object (new_object Image_MinSize) w in
  let c := {| Objects := [Some img; bg d; content d; btns; label d] |} in
  _ ← parent d;
  let '(p, w) := NewModalPopUp c w in
  let d := set_win (Some p) d in
  w ← dialog_Refresh d w;
  Some (d, w).

Definition newDialog (title message icon : string)
    (callback : option (bool -> World U -> World U)) (parent : option ref)
    (w : World U) : dialog U * World U :=
  let '(c, w) := newCenterLabel message w in
  ({| callback := callback; title := title; icon := icon;
      desiredSize := fyne.NewSize zero zero; win := None; bg := None;
      content := Some c; label := None; dismiss := None;
      parent := parent |}, w).

End Dialog.


(** ** The children the layout expects *)

Section Children.
Context {U : Type}.

(** The invariant of spec section 3: the layout receives exactly the five
    children [icon, background, content, buttons, label], five different
    objects of the store, the second and fifth being the dialog's own
    background and label. *)
Definition documented_children (d : dialog U) (obj : list (option ref))
    (w : World U) (ic bgr ct bt lb : ref) : Prop :=
  obj = [Some ic; Some bgr; Some ct; Some bt; Some lb] /\
  bg d = Some bgr /\ label d = Some lb /\
  NoDup [ic; bgr; ct; bt; lb] /\
  Forall (fun r => is_Some (objects w !! r)) [ic; bgr; ct; bt; lb].

(** An object after [Move p] and [Resize s]. *)
Definition moved (p : fyne.Position) (s : fyne.Size) (c : CanvasObject)
    : CanvasObject :=
  {| obj_Position := p; obj_Size := s; obj_MinSize := obj_MinSize c |}.

End Children.

(** ** A concrete dialog

    A store holding the five children, the label standing at height [y]:
    icon 0, background 1, content 2, buttons 3, label 4; pop-up 0 shows
    them, button 0 dismisses. *)
Definition example_object (x y : Z) (mw mh : Z) : CanvasObject :=
  {| obj_Position := fyne.NewPos (of_Z x) (of_Z y);
     obj_Size := fyne.NewSize zero zero;
     obj_MinSize := fyne.NewSize (of_Z mw) (of_Z mh) |}.

Definition example_children : list (option ref) :=
  [Some 0%nat; Some 1%nat; Some 2%nat; Some 3%nat; Some 4%nat].

Definition example_popup : PopUp :=
  {| Content := {| Objects := example_children |}; Visible := true;
     innerSize := fyne.NewSize zero zero; redraws := 0%nat |}.

Definition example_world {U : Type} (y : Z) (u : U) : World U :=
  {| objects := <[0%nat := example_object 0 0 1 1]>
               (<[1%nat := example_object 0 0 1 1]>
               (<[2%nat := example_object 0 0 120 40]>
               (<[3%nat := example_object 0 0 80 30]>
               (<[4%nat := example_object 0 y 50 20]> ∅))));
     popups := <[0%nat := example_popup]> ∅;
     buttons := <[0%nat := "OK"%string]> ∅;
     app := u |}.

Definition example_dialog {U : Type}
    (cb : option (bool -> World U -> World U)) : dialog U :=
  {| callback := cb; title := "Title"; icon := "info";
     desiredSize := fyne.NewSize zero zero; win := Some 0%nat;
     bg := Some 1%nat; content := Some 2%nat; label := Some 4%nat;
     dismiss := Some 0%nat; parent := Some 0%nat |}.

Definition example_size : fyne.Size := fyne.NewSize (of_Z 400) (of_Z 300).


(** ** Sequences of calls on a dialog *)

Section Operations.
Context {U : Type}.
Variable theme_Padding : float32.
Variable fyne_Max : float32 -> float32 -> float32.

(** The methods of the [Dialog] interface. *)
Inductive Op : Type :=
| OpShow
| OpHide
| OpSetDismissText (text : string)
| OpSetOnClosed (closed : World U -> World U)
| OpRefresh
| OpResize (size : fyne.Size)
| OpMinSize.

Definition step (op : Op) (d : dialog U) (w : World U)
    : option (dialog U * World U) :=
  match op with
  | OpShow => w ← dialog_Show d w; Some (d, w)
  | OpHide => w ← dialog_Hide d w; Some (d, w)
  | OpSetDismissText text => w ← dialog_SetDismissText text d w; Some (d, w)
  | OpSetOnClosed closed => Some (dialog_SetOnClosed closed d, w)
  | OpRefresh => w ← dialog_Refresh d w; Some (d, w)
  | OpResize size => dialog_Resize size d w
  | OpMinSize => _ ← dialog_MinSize theme_Padding fyne_Max d w; Some (d, w)
  end.

Fixpoint run (ops : list Op) (d : dialog U) (w : World U)
    : option (dialog U * World U) :=
  match ops with
  | [] => Some (d, w)
  | op :: ops => '(d, w) ← step op d w; run ops d w
  end.

(** [SetOnClosed] called once per handler, first to last. *)
Definition register (handlers : list (World U -> World U)) (d : dialog U)
    : dialog U :=
  fold_left (fun d closed => dialog_SetOnClosed closed d) handlers d.

(** The handlers called one after the other, first to last. *)
Definition invoke_in_order (handlers : list (World U -> World U))
    (w : World U) : World U :=
  fold_left (fun w h => h w) handlers w.

(** Calling a stored callback that may be [nil]. *)
Definition invoke_callback (cb : option (bool -> World U -> World U))
    (resp : bool) (w : World U) : World U :=
  match cb with
  | Some f => f resp w
  | None => w
  end.

(** The pop-up [p] made invisible. *)
Definition hidden (p : ref) (pu : PopUp) (w : World U) : World U :=
  set_popups <[p := {| Content := Content pu; Visible := false;
                       innerSize := innerSize pu;
                       redraws := redraws pu |}]> w.

(** The pop-up [p] resized to [s]. *)
Definition resized (p : ref) (pu : PopUp) (s : fyne.Size) (w : World U)
    : World U :=
  set_popups <[p := {| Content := Content pu; Visible := Visible pu;
                       innerSize := s; redraws := redraws pu |}]> w.

End Operations.

Arguments OpShow {U}.
Arguments OpHide {U}.
Arguments OpSetDismissText {U} text.
Arguments OpSetOnClosed {U} closed.
Arguments OpRefresh {U}.
Arguments OpResize {U} size.
Arguments OpMinSize {U}.

(** *** Handlers that keep a record of their calls *)

Inductive Invocation : Type :=
| Callback (response : bool)   (* the [func(bool)] given to [newDialog] *)
| Closed (handler : nat).      (* the [func()] of a [SetOnClosed] *)

Definition recording_callback (resp : bool)
    : World (list Invocation) -> World (list Invocation) :=
  set_app (fun log => log ++ [Callback resp]).

Definition recording_closed (handler : nat)
    : World (list Invocation) -> World (list Invocation) :=
  set_app (fun log => log ++ [Closed handler]).

(** No call of the callback with [true] is on record. *)
Definition no_true (log : list Invocation) : Prop := Callback true ∉ log.

(** A handler passed to [SetOnClosed] that does not tamper with the
    record: it never leaves a [Callback true] behind where there was none. *)
Definition quiet (op : Op (U := list Invocation)) : Prop :=
  match op with
  | OpSetOnClosed closed =>
      forall w, no_true (app w) -> no_true (app (closed w))
  | _ => True
  end.

(** The stored callback, called with [false], leaves no [Callback true]. *)
Definition safe (d : dialog (list Invocation)) : Prop :=
  forall w, no_true (app w) ->
            no_true (app (invoke_callback (callback d) false w)).

(** Two dialogs that differ at most in what their callbacks do when called
    with [true]. *)
Definition agree_on_false {U : Type} (d1 d2 : dialog U) : Prop :=
  desiredSize d1 = desiredSize d2 /\ win d1 = win d2 /\
  label d1 = label d2 /\ dismiss d1 = dismiss d2 /\
  forall w, invoke_callback (callback d1) false w
            = invoke_callback (callback d2) false w.

(** Two runs that panic together or end in the same world. *)
Definition same_result {U : Type} (r1 r2 : option (dialog U * World U)) : Prop :=
  match r1, r2 with
  | Some (d1, w1), Some (d2, w2) => agree_on_false d1 d2 /\ w1 = w2
  | None, None => True
  | _, _ => False
  end.

(** A [fyne.Max] to compute with: the larger of two numbers. *)
Definition example_Max (x y : float32) : float32 :=
  if SFltb x y then y else x.

(** *** A session with the concrete dialog *)

Definition example_session : list (Op (U := list Invocation)) :=
  [OpShow; OpSetOnClosed (recording_closed 1);
   OpResize (fyne.NewSize (of_Z 640) (of_Z 480)); OpMinSize;
   OpSetDismissText "Close"; OpRefresh; OpHide; OpShow; OpHide].

Definition example_start : dialog (list Invocation) :=
  example_dialog (Some recording_callback).

Definition example_end : dialog (list Invocation) * World (list Invocation) :=
  match run (of_Z 4) example_Max example_session example_start
          (example_world 0 []) with
  | Some r => r
  | None => (example_start, example_world 0 [])
  end.

(** *** A dialog built by [newDialog] and [create]

    Labels are 8 wide per character and 20 high; the buttons are a new
    object of minimum size 80 x 30. *)

Definition example_Label_MinSize (text : string) : fyne.Size :=
  fyne.NewSize (of_Z (8 * Z.of_nat (String.length text))) (of_Z 20).

Definition example_created : option (dialog unit * World unit) :=
  let w := {| objects := ∅; popups := ∅; buttons := ∅; app := tt |} in
  let '(d, w) :=
    newDialog example_Label_MinSize "Title" "Are you sure?" "info" None
      (Some 0%nat) w in
  let '(b, w) :=
    alloc_object (new_object (fyne.NewSize (of_Z 80) (of_Z 30))) w in
  dialog_create example_Label_MinSize (fyne.NewSize (of_Z 1) (of_Z 1))
    (fyne.NewSize (of_Z 1) (of_Z 1)) true (Some b) d w.

(** ** ThemedBackground *)

(** [color.NRGBA]: four [uint8] components. *)
Record NRGBA : Type := { R : Z; G : Z; B : Z; A : Z }.

(** Go's conversion [uint8(x)] of an [int]: the low eight bits. *)
Definition uint8 (x : Z) : Z := x mod 2 ^ 8.

Section ThemedBackground.

(** The colours a theme hands out ([color.Color]) and [col.ToNRGBA], which
    splits one into red, green, blue and alpha; both live outside the
    excerpt. *)
Variable Color : Type.
Variable ToNRGBA : Color -> Z * Z * Z * Z.

(** The [color.Color] stored in a rectangle: what the theme gave, or a
    pointer to an [NRGBA] built by [Refresh]. *)
Inductive FillColor : Type :=
| ThemeColor (c : Color)
| NRGBAColor (c : NRGBA).

(** [canvas.Rectangle], as far as the renderer touches it. *)
Record Rectangle : Type := {
  rect_FillColor : FillColor;
  rect_Size : fyne.Size;
  rect_MinSize : fyne.Size
}.

(** [themedBackgroundRenderer]; its [objects] slice holds the same
    rectangle as [rect]. *)
Record themedBackgroundRenderer : Type := { rect : Rectangle }.

(** [canvas.NewRectangle] *)
Definition NewRectangle (min : fyne.Size) (c : Color) : Rectangle :=
  {| rect_FillColor := ThemeColor c;
     rect_Size := fyne.NewSize zero zero;
     rect_MinSize := min |}.

(** [CreateRenderer]; [overlay] is [theme.OverlayBackgroundColor()]. *)
Definition themedBackground_CreateRenderer (min : fyne.Size) (overlay : Color)
    : themedBackgroundRenderer :=
  {| rect := NewRectangle min overlay |}.

Definition themedBackgroundRenderer_Layout (size : fyne.Size)
    (renderer : themedBackgroundRenderer) : themedBackgroundRenderer :=
  {| rect := {| rect_FillColor := rect_FillColor (rect renderer);
                rect_Size := size;
                rect_MinSize := rect_MinSize (rect renderer) |} |}.

Definition themedBackgroundRenderer_MinSize
    (renderer : themedBackgroundRenderer) : fyne.Size :=
  rect_MinSize (rect renderer).

Definition themedBackgroundRenderer_Objects
    (renderer : themedBackgroundRenderer) : list Rectangle :=
  [rect renderer].

(** [Refresh]; [overlay] is [theme.OverlayBackgroundColor()] at the time of
    the call. *)
Definition themedBackgroundRenderer_Refresh (overlay : Color)
    (renderer : themedBackgroundRenderer) : themedBackgroundRenderer :=
  let '(r, g, b, _) := ToNRGBA overlay in
  let bg := {| R := uint8 r; G := uint8 g; B := uint8 b; A := 230 |} in
  {| rect := {| rect_FillColor := NRGBAColor bg;
                rect_Size := rect_Size (rect renderer);
                rect_MinSize := rect_MinSize (rect renderer) |} |}.

End ThemedBackground.

Arguments ThemeColor {Color} c.
Arguments NRGBAColor {Color} c.
Arguments rect_FillColor {Color} _.
Arguments rect_Size {Color} _.
Arguments rect_MinSize {Color} _.
Arguments rect {Color} _.
Arguments themedBackgroundRenderer_Layout {Color} size renderer.
Arguments themedBackgroundRenderer_MinSize {Color} renderer.
Arguments themedBackgroundRenderer_Objects {Color} renderer.
Arguments themedBackgroundRenderer_Refresh {Color} ToNRGBA overlay renderer.
Arguments themedBackground_CreateRenderer {Color} min overlay.

(** ** The GopherJS packager (package [commands]) *)

Module commands.

(** The fields of [Packager] the routine reads. *)
Record Packager : Type := {
  dir : string;
  name : string;
  icon : string;
  exe : string;
  release : bool
}.

(** The fields of [indexData] the routine sets. *)
Record indexData : Type := {
  GopherJSFile : string;
  IsReleased : bool;
  HasGopherJS : bool
}.

Definition webglDebugURL : string :=
  "https://raw.githubusercontent.com/KhronosGroup/WebGLDeveloperTools/b42e702487d02d5278814e0fe2e2888d234893e6/src/debug/webgl-debug.js".

Section Packaging.

(** The outside world (file system and network), Go's [error] values,
    open files ([*os.File]) and HTTP responses ([*http.Response]). *)
Variables (Sys error File Response : Type).

(** The calls that leave the program. *)
Inductive Call : Type :=
| EnsureSubDir (parent sub : string)       (* util.EnsureSubDir *)
| Create (path : string)                   (* os.Create *)
| Execute (wr : File) (data : indexData)   (* templates.IndexHTML.Execute *)
| CopyFile (src dst : string)              (* util.CopyFile *)
| Get (url : string)                       (* http.Get *)
| Copy (dst : File) (src : Response)       (* io.Copy(dst, src.Body) *)
| CloseFile (f : File)                     (* os.File.Close *)
| CloseBody (r : Response).                (* r.Body.Close *)

(** What each call returns; a [nil] error is [None]. *)
Definition Reply (c : Call) : Type :=
  match c with
  | EnsureSubDir _ _ => string
  | Create _ => File * option error
  | Execute _ _ => option error
  | CopyFile _ _ => option error
  | Get _ => Response * option error
  | Copy _ _ => Z * option error
  | CloseFile _ => option error
  | CloseBody _ => option error
  end%type.

(** One call with the answer it got. *)
Record Event : Type := { call : Call; reply : Reply call }.

(** How the world answers, and what the call leaves behind. *)
Variable perform : forall c : Call, Sys -> Sys * Reply c.

(** [filepath.Join] *)
Variable filepath_Join : string -> string -> string.

(** Computations that talk to the world; every call is written to a log. *)
Definition IO (A : Type) : Type := Sys * list Event -> (Sys * list Event) * A.

Definition ret {A : Type} (a : A) : IO A := fun s => (s, a).

Definition bind {A B : Type} (m : IO A) (k : A -> IO B) : IO B :=
  fun s => let '(s', a) := m s in k a s'.

Definition do (c : Call) : IO (Reply c) :=
  fun '(sys, log) =>
    let '(sys', r) := perform c sys in
    ((sys', log ++ [{| call := c; reply := r |}]), r).

(** [defer cleanup] followed by [body]: the cleanup runs when [body]
    returns, after the result has been fixed. *)
Definition defer {A : Type} (cleanup : IO unit) (body : IO A) : IO A :=
  bind body (fun a => bind cleanup (fun _ => ret a)).

Definition discard {A : Type} (m : IO A) : IO unit :=
  bind m (fun _ => ret tt).

Declare Scope io_scope.
Delimit Scope io_scope with io.
Notation "'let!' p ':=' m 'in' k" := (bind m (fun x => let 'p := x in k))
  (at level 10, p pattern, m at level 100, k at level 200, only parsing)
  : io_scope.
(** [if err != nil { return err }] *)
Notation "'check' err ;; k" :=
  (match err with Some e => ret (Some e) | None => k end)
  (at level 10, err at level 9, k at level 200, only parsing) : io_scope.

Definition packageGopherJS (p : Packager) : IO (option error) :=
  (let! appDir := do (EnsureSubDir (dir p) "gopherjs") in

   let index := filepath_Join appDir "index.html" in
   let! (indexFile, err) := do (Create index) in
   check err ;;

   let tplData := {| GopherJSFile := name p; IsReleased := release p;
                     HasGopherJS := true |} in
   let! err := do (Execute indexFile tplData) in
   check err ;;

   let iconDst := filepath_Join appDir "icon.png" in
   let! err := do (CopyFile (icon p) iconDst) in
   check err ;;

   let exeDst := filepath_Join appDir (name p) in
   let! err := do (CopyFile (exe p) exeDst) in
   check err ;;

   (* Download webgl-debug.js when needed *)
   if negb (release p) then
     let! (r, err) := do (Get webglDebugURL) in
     check err ;;
     defer (discard (do (CloseBody r)))
       (let webglDebugFile := filepath_Join appDir "webgl-debug.js" in
        let! (out, err) := do (Create webglDebugFile) in
        check err ;;
        defer (discard (do (CloseFile out)))
          (let! (_, err) := do (Copy out r) in
           ret err))
   else
     ret None)%io.

(** *** The runs the spec allows

    Sections 6 and 7 of the spec: the entry file, the icon and the
    executable are written under the [gopherjs] subdirectory, the debug
    script is fetched unless the packager is in release mode, and the first
    error ends the run and is the result.  Each event below is one call with
    its answer. *)

Definition ev (c : Call) (r : Reply c) : Event := {| call := c; reply := r |}.

Definition subdir_ensured (p : Packager) (appDir : string) : Event :=
  ev (EnsureSubDir (dir p) "gopherjs") appDir.

Definition index_created (appDir : string) (f : File) (err : option error)
    : Event :=
  ev (Create (filepath_Join appDir "index.html")) (f, err).

Definition index_written (p : Packager) (f : File) (err : option error)
    : Event :=
  ev (Execute f {| GopherJSFile := name p; IsReleased := release p;
                   HasGopherJS := true |}) err.

Definition icon_copied (p : Packager) (appDir : string) (err : option error)
    : Event :=
  ev (CopyFile (icon p) (filepath_Join appDir "icon.png")) err.

Definition exe_copied (p : Packager) (appDir : string) (err : option error)
    : Event :=
  ev (CopyFile (exe p) (filepath_Join appDir (name p))) err.

Definition script_fetched (r : Response) (err : option error) : Event :=
  ev (Get webglDebugURL) (r, err).

Definition script_created (appDir : string) (out : File) (err : option error)
    : Event :=
  ev (Create (filepath_Join appDir "webgl-debug.js")) (out, err).

Definition script_copied (out : File) (r : Response) (n : Z)
    (err : option error) : Event :=
  ev (Copy out r) (n, err).

Definition file_closed (f : File) (err : option error) : Event :=
  ev (CloseFile f) err.

Definition body_closed (r : Response) (err : option error) : Event :=
  ev (CloseBody r) err.

Inductive outcome (p : Packager) : list Event -> option error -> Prop :=
| index_create_fails appDir f e :
    outcome p [subdir_ensured p appDir; index_created appDir f (Some e)]
      (Some e)
| index_write_fails appDir f e :
    outcome p [subdir_ensured p appDir; index_created appDir f None;
               index_written p f (Some e)]
      (Some e)
| icon_copy_fails appDir f e :
    outcome p [subdir_ensured p appDir; index_created appDir f None;
               index_written p f None; icon_copied p appDir (Some e)]
      (Some e)
| exe_copy_fails appDir f e :
    outcome p [subdir_ensured p appDir; index_created appDir f None;
               index_written p f None; icon_copied p appDir None;
               exe_copied p appDir (Some e)]
      (Some e)
| released appDir f :
    release p = true ->
    outcome p [subdir_ensured p appDir; index_created appDir f None;
               index_written p f None; icon_copied p appDir None;
               exe_copied p appDir None]
      None
| script_fetch_fails appDir f r e :
    release p = false ->
    outcome p [subdir_ensured p appDir; index_created appDir f None;
               index_written p f None; icon_copied p appDir None;
               exe_copied p appDir None; script_fetched r (Some e)]
      (Some e)
| script_create_fails appDir f r out e c1 :
    release p = false ->
    outcome p [subdir_ensured p appDir; index_created appDir f None;
               index_written p f None; icon_copied p appDir None;
               exe_copied p appDir None; script_fetched r None;
               script_created appDir out (Some e); body_closed r c1]
      (Some e)
| script_copied_or_not appDir f r out n err c1 c2 :
    release p = false ->
    outcome p [subdir_ensured p appDir; index_created appDir f None;
               index_written p f None; icon_copied p appDir None;
               exe_copied p appDir None; script_fetched r None;
               script_created appDir out None; script_copied out r n err;
               file_closed out c1; body_closed r c2]
      err.

End Packaging.

Arguments EnsureSubDir {File Response}.
Arguments Create {File Response}.
Arguments Execute {File Response}.
Arguments CopyFile {File Response}.
Arguments Get {File Response}.
Arguments Copy {File Response}.
Arguments CloseFile {File Response}.
Arguments CloseBody {File Response}.
Arguments call {error File Response}.
Arguments reply {error File Response}.
Arguments Build_Event {error File Response}.
Arguments Reply {error File Response}.
Arguments packageGopherJS {Sys error File Response}.
Arguments outcome {error File Response}.
Arguments ev {error File Response}.
Arguments subdir_ensured {error File Response}.
Arguments index_written {error File Response}.
Arguments script_fetched {error File Response}.
Arguments script_copied {error File Response}.
Arguments file_closed {error File Response}.
Arguments body_closed {error File Response}.
Arguments index_created {error File Response}.
Arguments icon_copied {error File Response}.
Arguments exe_copied {error File Response}.
Arguments script_created {error File Response}.


(** *** A world to run the packager in

    Files and responses are named by their path or URL, errors by a text;
    the world is the list of paths that cannot be written and of URLs that
    cannot be fetched. *)

Definition example_perform (c : Call string string) (broken : list string)
    : list string * @Reply string string string c :=
  let failing (x : string) : option string :=
    if bool_decide (x ∈ broken) then Some ("cannot write " ++ x)%string
    else None in
  match c with
  | EnsureSubDir parent sub => (broken, (parent ++ "/" ++ sub)%string)
  | Create path => (broken, (path, failing path))
  | Execute wr _ => (broken, failing wr)
  | CopyFile _ dst => (broken, failing dst)
  | Get url => (broken, (url, failing url))
  | Copy dst _ => (broken, (0, failing dst))
  | CloseFile _ => (broken, None)
  | CloseBody _ => (broken, None)
  end.

Definition example_Join (a b : string) : string := (a ++ "/" ++ b)%string.

Definition example_packager (rel : bool) : Packager :=
  {| dir := "out"; name := "app.js"; icon := "Icon.png"; exe := "app";
     release := rel |}.

End commands.

(** ** The store after a layout *)

Section LaidOut.
Context {U : Type}.
Variable theme_Padding : float32.

(** The store [Layout] leaves for the container size [size], given the
    children (icon [ic], background [bgr], content [ct], buttons [bt]) as
    they stood before and the label [clb] the dialog measures. *)
Definition laid_out (size : fyne.Size) (ic bgr ct bt : ref)
    (cic cbg cct cbt clb : CanvasObject) (w : World U) : World U :=
  let h := fyne.Height (obj_MinSize clb) in
  let side := (of_Z (padHeight * 2) + h * of_Z 2 - theme_Padding)%f32 in
  let btnTop :=
    (fyne.Height size - of_Z padHeight - fyne.Height (obj_MinSize cbt))%f32 in
  set_objects
    (fun m =>
       <[ct := moved (fyne.NewPos (of_Z (padWidth / 2)) (h + of_Z padHeight)%f32)
                 (fyne.NewSize
                    (fyne.Width size - of_Z padWidth)%f32
                    ((btnTop - theme_Padding)
                     - (fyne.Y (obj_Position clb) + h + of_Z padHeight))%f32)
                 cct]>
       (<[bt := moved (fyne.NewPos
                         (fyne.Width size / of_Z 2
                          - fyne.Width (obj_MinSize cbt) / of_Z 2)%f32
                         btnTop)
                  (obj_MinSize cbt) cbt]>
       (<[ic := moved (fyne.NewPos
                         (fyne.Width size - side + theme_Padding)%f32
                         (- theme_Padding)%f32)
                  (fyne.NewSize side side) cic]>
       (<[bgr := moved (fyne.NewPos zero zero) size cbg]> m)))) w.

End LaidOut.

(** ** What a log of the packager shows *)

Section Logs.
Import commands.
Variables (error File Response : Type).

Abbreviation Log := (list (Event error File Response)).

(** The calls that reach the network or read from it. *)
Definition is_network (c : Call File Response) : bool :=
  match c with
  | Get _ | Copy _ _ | CloseBody _ => true
  | _ => false
  end.

(** The responses [http.Get] handed out without an error. *)
Definition opened_bodies (log : Log) : list Response :=
  flat_map (fun e =>
    match call e as c return Reply c -> list Response with
    | Get _ => fun rep => match rep with
                          | (r, None) => [r]
                          | (_, Some _) => []
                          end
    | _ => fun _ => []
    end (reply e)) log.

(** The responses whose body was closed. *)
Definition closed_bodies (log : Log) : list Response :=
  flat_map (fun e => match call e with CloseBody r => [r] | _ => [] end) log.

(** The files [os.Create] handed out without an error. *)
Definition created_files (log : Log) : list File :=
  flat_map (fun e =>
    match call e as c return Reply c -> list File with
    | Create _ => fun rep => match rep with
                             | (f, None) => [f]
                             | (_, Some _) => []
                             end
    | _ => fun _ => []
    end (reply e)) log.

(** The files that were closed. *)
Definition closed_files (log : Log) : list File :=
  flat_map (fun e => match call e with CloseFile f => [f] | _ => [] end) log.

(** The paths the run tried to write: created files and copy targets. *)
Definition written_paths (log : Log) : list string :=
  flat_map (fun e => match call e with
                     | Create path => [path]
                     | CopyFile _ dst => [dst]
                     | _ => []
                     end) log.

(** The error a call reported, the deferred closes apart: what they
    return is dropped by the routine. *)
Definition step_error (e : Event error File Response) : option error :=
  match call e as c return Reply c -> option error with
  | EnsureSubDir _ _ => fun _ => None
  | Create _ => fun rep => snd rep
  | Execute _ _ => fun err => err
  | CopyFile _ _ => fun err => err
  | Get _ => fun rep => snd rep
  | Copy _ _ => fun rep => snd rep
  | CloseFile _ => fun _ => None
  | CloseBody _ => fun _ => None
  end (reply e).

End Logs.

Arguments is_network {File Response} c.
Arguments opened_bodies {error File Response} log.
Arguments closed_bodies {error File Response} log.
Arguments created_files {error File Response} log.
Arguments closed_files {error File Response} log.
Arguments written_paths {error File Response} log.
Arguments step_error {error File Response} e.

(** ** More of the concrete dialog *)

Definition empty_world : World unit :=
  {| objects := ∅; popups := ∅; buttons := ∅; app := tt |}.

(** The dialog of [example_created] before [create]: content 0 holds the
    message, object 1 the buttons. *)
Definition example_uncreated : dialog unit * World unit :=
  let '(d, w) :=
    newDialog example_Label_MinSize "Title" "Are you sure?" "info" None
      (Some 0%nat) empty_world in
  let '(_, w) :=
    alloc_object (new_object (fyne.NewSize (of_Z 80) (of_Z 30))) w in
  (d, w).

Definition example_create
    : dialog unit -> World unit -> option (dialog unit * World unit) :=
  dialog_create example_Label_MinSize (fyne.NewSize (of_Z 1) (of_Z 1))
    (fyne.NewSize (of_Z 1) (of_Z 1)) true (Some 1%nat).

Definition example_after_create : dialog unit * World unit :=
  match example_create (fst example_uncreated) (snd example_uncreated) with
  | Some r => r
  | None => example_uncreated
  end.


(** A session without [Hide]. *)
Definition example_quiet_session : list (Op (U := list Invocation)) :=
  [OpSetOnClosed (recording_closed 1); OpShow;
   OpResize (fyne.NewSize (of_Z 640) (of_Z 480)); OpSetDismissText "Close";
   OpMinSize; OpRefresh; OpSetOnClosed (recording_closed 2); OpShow].

Definition example_quiet_end
    : dialog (list Invocation) * World (list Invocation) :=
  match run (of_Z 4) example_Max example_quiet_session example_start
          (example_world 0 [Closed 7]) with
  | Some r => r
  | None => (example_start, example_world 0 [Closed 7])
  end.

(** * Properties *)

(** ** The layout places the documented children *)

(** Adding a zero in front of a sum with a non-zero constant changes
    nothing, whatever the sign of the zero: Go's [0 + h + 16] is [h + 16]. *)
Lemma add_zero_then_const (y h : float32) :
  eqb y zero = true -> (y + h + of_Z padHeight)%f32 = (h + of_Z padHeight)%f32.
Proof.
  intros Hz.
  destruct y as [[]|[]| |[] m e]; cbv in Hz; try discriminate;
    destruct h as [[]|[]| |[] m' e']; reflexivity.
Qed.


Ltac example_documented :=
  do 3 (split; [reflexivity|]); split;
  [ apply (bool_decide_unpack _); reflexivity
  | repeat constructor; eexists; reflexivity ].

Section LayoutFacts.
Context {U : Type}.
Variable theme_Padding : float32.

(** What [Layout] leaves in the store, object by object. *)
Lemma Layout_documented (d : dialog U) obj size (w : World U) ic bgr ct bt lb
    cic cbg cct cbt clb :
  documented_children d obj w ic bgr ct bt lb ->
  objects w !! ic = Some cic -> objects w !! bgr = Some cbg ->
  objects w !! ct = Some cct -> objects w !! bt = Some cbt ->
  objects w !! lb = Some clb ->
  let h := fyne.Height (obj_MinSize clb) in
  let side := (of_Z (padHeight * 2) + h * of_Z 2 - theme_Padding)%f32 in
  let btnTop :=
    (fyne.Height size - of_Z padHeight - fyne.Height (obj_MinSize cbt))%f32 in
  exists w',
    dialogLayout_Layout theme_Padding d obj size w = Some w' /\
    objects w' !! bgr = Some (moved (fyne.NewPos zero zero) size cbg) /\
    objects w' !! ic =
      Some (moved (fyne.NewPos (fyne.Width size - side + theme_Padding)%f32
                               (- theme_Padding)%f32)
                  (fyne.NewSize side side) cic) /\
    objects w' !! bt =
      Some (moved (fyne.NewPos (fyne.Width size / of_Z 2
                                - fyne.Width (obj_MinSize cbt) / of_Z 2)%f32
                               btnTop)
                  (obj_MinSize cbt) cbt) /\
    objects w' !! ct =
      Some (moved (fyne.NewPos (of_Z (padWidth / 2)) (h + of_Z padHeight)%f32)
                  (fyne.NewSize
                     (fyne.Width size - of_Z padWidth)%f32
                     ((btnTop - theme_Padding)
                      - (fyne.Y (obj_Position clb) + h + of_Z padHeight))%f32)
                  cct) /\
    objects w' !! lb = Some clb /\
    popups w' = popups w /\ buttons w' = buttons w /\ app w' = app w.
Proof.
  intros (-> & Hbg & Hlb & Hnd & _) Hic Hbgr Hct Hbt Hlbl h side btnTop.
  repeat match goal with
         | H : NoDup (_ :: _) |- _ => apply NoDup_cons in H as [? H]
         end.
  repeat match goal with
         | H : _ ∉ _ :: _ |- _ => apply not_elem_of_cons in H as [? H]
         end.
  unfold dialogLayout_Layout, CanvasObject_Move, CanvasObject_Resize,
    CanvasObject_MinSize, CanvasObject_Position, CanvasObject_get.
  rewrite Hbg, Hlb. simpl.
  repeat (simplify_map_eq; simpl).
  eexists; split; [reflexivity|]. simpl.
  repeat (simplify_map_eq; simpl).
  repeat split; reflexivity.
Qed.

Lemma documented_lookup (d : dialog U) obj (w : World U) ic bgr ct bt lb :
  documented_children d obj w ic bgr ct bt lb ->
  exists cic cbg cct cbt clb,
    objects w !! ic = Some cic /\ objects w !! bgr = Some cbg /\
    objects w !! ct = Some cct /\ objects w !! bt = Some cbt /\
    objects w !! lb = Some clb.
Proof.
  intros (_ & _ & _ & _ & Hall).
  repeat match goal with
         | H : Forall _ (_ :: _) |- _ => apply Forall_cons in H as [[? ?] H]
         end.
  eauto 10.
Qed.

Lemma MinSize_Some (o : ref) (w : World U) s :
  CanvasObject_MinSize (Some o) w = Some s ->
  exists c, objects w !! o = Some c /\ obj_MinSize c = s.
Proof.
  unfold CanvasObject_MinSize, CanvasObject_get. simpl.
  destruct (objects w !! o) as [c|]; simpl; [|discriminate].
  intros [= <-]. eauto.
Qed.

Lemma Position_Some (o : ref) (w : World U) p :
  CanvasObject_Position (Some o) w = Some p ->
  exists c, objects w !! o = Some c /\ obj_Position c = p.
Proof.
  unfold CanvasObject_Position, CanvasObject_get. simpl.
  destruct (objects w !! o) as [c|]; simpl; [|discriminate].
  intros [= <-]. eauto.
Qed.

Ltac layout_facts H size w' :=
  let HL := fresh "HL" in
  pose proof H as HL;
  apply documented_lookup in HL
    as (cic & cbg & cct & cbt & clb & Hic & Hbgr & Hct & Hbt & Hlbl);
  destruct (Layout_documented _ _ size _ _ _ _ _ _ _ _ _ _ _
              H Hic Hbgr Hct Hbt Hlbl)
    as (w' & Hrun & Hbg' & Hic' & Hbt' & Hct' & Hlb' & _).

(** C3: the icon is made a square of side
    [2*padHeight + 2*(label minimum height) - theme.Padding()] and moved to
    [(S.Width - side + padding, -padding)], the top-right corner overhung by
    the padding; for a label of minimum height 20 the side is
    [16*2 + 20*2 - padding]. *)
Theorem Layout_icon (d : dialog U) obj size (w : World U) ic bgr ct bt lb lmin :
  documented_children d obj w ic bgr ct bt lb ->
  CanvasObject_MinSize (Some lb) w = Some lmin ->
  let side :=
    (of_Z (2 * padHeight) + fyne.Height lmin * of_Z 2 - theme_Padding)%f32 in
  (exists w',
     dialogLayout_Layout theme_Padding d obj size w = Some w' /\
     CanvasObject_Size (Some ic) w' = Some (fyne.NewSize side side) /\
     CanvasObject_Position (Some ic) w' =
       Some (fyne.NewPos (fyne.Width size - side + theme_Padding)%f32
                         (- theme_Padding)%f32)) /\
  (of_Z (2 * padHeight) + of_Z 20 * of_Z 2 - theme_Padding)%f32
  = (of_Z (16 * 2 + 20 * 2) - theme_Padding)%f32.
Proof.
  intros H Hmin side. split.
  - layout_facts H size w'.
    apply MinSize_Some in Hmin as (c & Hc & <-).
    assert (c = clb) as -> by congruence.
    exists w'. split; [exact Hrun|].
    unfold CanvasObject_Size, CanvasObject_Position, CanvasObject_get. simpl.
    rewrite Hic'. split; reflexivity.
  - reflexivity.
Qed.

(** C6: the background is moved to (0,0) and given the size [S]; the buttons
    get their own minimum size and are placed at
    [(S.Width/2 - btnMin.Width/2, S.Height - padHeight - btnMin.Height)]. *)
Theorem Layout_background_buttons (d : dialog U) obj size (w : World U)
    ic bgr ct bt lb btnMin :
  documented_children d obj w ic bgr ct bt lb ->
  CanvasObject_MinSize (Some bt) w = Some btnMin ->
  exists w',
    dialogLayout_Layout theme_Padding d obj size w = Some w' /\
    CanvasObject_Position (bg d) w' = Some (fyne.NewPos (of_Z 0) (of_Z 0)) /\
    CanvasObject_Size (bg d) w' = Some size /\
    CanvasObject_Size (Some bt) w' = Some btnMin /\
    CanvasObject_Position (Some bt) w' =
      Some (fyne.NewPos
              (fyne.Width size / of_Z 2 - fyne.Width btnMin / of_Z 2)%f32
              (fyne.Height size - of_Z padHeight - fyne.Height btnMin)%f32).
Proof.
  intros H Hmin.
  layout_facts H size w'.
  apply MinSize_Some in Hmin as (c & Hc & <-).
  assert (c = cbt) as -> by congruence.
  destruct H as (_ & -> & _).
  exists w'. split; [exact Hrun|].
  unfold CanvasObject_Size, CanvasObject_Position, CanvasObject_get. simpl.
  rewrite Hbg', Hbt'. repeat split; reflexivity.
Qed.

(** Wherever the label stands, the content is moved to
    [(padWidth/2, label minimum height + padHeight)] and made
    [S.Width - padWidth] wide, and its height is
    [(button top - padding) - (label y + label minimum height + padHeight)]. *)
Lemma Layout_content (d : dialog U) obj size (w : World U)
    ic bgr ct bt lb lmin lpos :
  documented_children d obj w ic bgr ct bt lb ->
  CanvasObject_MinSize (Some lb) w = Some lmin ->
  CanvasObject_Position (Some lb) w = Some lpos ->
  exists w' btnPos,
    dialogLayout_Layout theme_Padding d obj size w = Some w' /\
    CanvasObject_Position (Some bt) w' = Some btnPos /\
    CanvasObject_Position (Some ct) w' =
      Some (fyne.NewPos (of_Z (padWidth / 2))
                        (fyne.Height lmin + of_Z padHeight)%f32) /\
    CanvasObject_Size (Some ct) w' =
      Some (fyne.NewSize
              (fyne.Width size - of_Z padWidth)%f32
              ((fyne.Y btnPos - theme_Padding)
               - (fyne.Y lpos + fyne.Height lmin + of_Z padHeight))%f32).
Proof.
  intros H Hmin Hpos.
  layout_facts H size w'.
  apply MinSize_Some in Hmin as (c & Hc & <-).
  assert (c = clb) as -> by congruence.
  apply Position_Some in Hpos as (c & Hc' & <-).
  assert (c = clb) as -> by congruence.
  eexists w', _. split; [exact Hrun|].
  unfold CanvasObject_Size, CanvasObject_Position, CanvasObject_get. simpl.
  rewrite Hbt', Hct'. simpl.
  split; [reflexivity|]. split; reflexivity.
Qed.


(** The height alone, in the form the lemmas on [create] use. *)
Lemma Layout_label_at_origin (d : dialog U) obj size (w : World U)
    ic bgr ct bt lb lmin lpos :
  documented_children d obj w ic bgr ct bt lb ->
  CanvasObject_MinSize (Some lb) w = Some lmin ->
  CanvasObject_Position (Some lb) w = Some lpos ->
  eqb (fyne.Y lpos) zero = true ->
  exists w' btnPos,
    dialogLayout_Layout theme_Padding d obj size w = Some w' /\
    CanvasObject_Position (Some bt) w' = Some btnPos /\
    CanvasObject_Size (Some ct) w' =
      Some (fyne.NewSize
              (fyne.Width size - of_Z padWidth)%f32
              ((fyne.Y btnPos - theme_Padding)
               - (fyne.Height lmin + of_Z padHeight))%f32).
Proof.
  intros H Hmin Hpos Hzero.
  layout_facts H size w'.
  apply MinSize_Some in Hmin as (c & Hc & <-).
  assert (c = clb) as -> by congruence.
  apply Position_Some in Hpos as (c & Hc' & <-).
  assert (c = clb) as -> by congruence.
  eexists w', _. split; [exact Hrun|].
  unfold CanvasObject_Size, CanvasObject_Position, CanvasObject_get. simpl.
  rewrite Hbt', Hct'. simpl.
  split; [reflexivity|].
  rewrite (add_zero_then_const _ _ Hzero). reflexivity.
Qed.

End LayoutFacts.


Lemma Layout_icon_witness :
  let side := (of_Z (2 * padHeight) + of_Z 20 * of_Z 2 - of_Z 4)%f32 in
  (exists w',
     dialogLayout_Layout (of_Z 4) (example_dialog None) example_children
       example_size (example_world 0 tt) = Some w' /\
     CanvasObject_Size (Some 0%nat) w' = Some (fyne.NewSize side side) /\
     CanvasObject_Position (Some 0%nat) w' =
       Some (fyne.NewPos (of_Z 400 - side + of_Z 4)%f32 (- of_Z 4)%f32)) /\
  (of_Z (2 * padHeight) + of_Z 20 * of_Z 2 - of_Z 4)%f32
  = (of_Z (16 * 2 + 20 * 2) - of_Z 4)%f32.
Proof.
  apply (Layout_icon (of_Z 4) (example_dialog None) example_children
           example_size (example_world 0 tt) 0%nat 1%nat 2%nat 3%nat 4%nat
           (fyne.NewSize (of_Z 50) (of_Z 20))).
  - example_documented.
  - reflexivity.
Defined.

Lemma Layout_background_buttons_witness :
  exists w',
    dialogLayout_Layout (of_Z 4) (example_dialog None) example_children
      example_size (example_world 0 tt) = Some w' /\
    CanvasObject_Position (Some 1%nat) w' = Some (fyne.NewPos (of_Z 0) (of_Z 0)) /\
    CanvasObject_Size (Some 1%nat) w' = Some example_size /\
    CanvasObject_Size (Some 3%nat) w' = Some (fyne.NewSize (of_Z 80) (of_Z 30)) /\
    CanvasObject_Position (Some 3%nat) w' =
      Some (fyne.NewPos (of_Z 400 / of_Z 2 - of_Z 80 / of_Z 2)%f32
                        (of_Z 300 - of_Z padHeight - of_Z 30)%f32).
Proof.
  apply (Layout_background_buttons (of_Z 4) (example_dialog None)
           example_children example_size (example_world 0 tt)
           0%nat 1%nat 2%nat 3%nat 4%nat (fyne.NewSize (of_Z 80) (of_Z 30))).
  - example_documented.
  - reflexivity.
Defined.


(** In a container of 400 x 300 with padding 4, buttons of 80 x 30 and a
    label of minimum height 20 at [y = 0], the content starts at 36 and is
    214 high: it ends at 250, four below which the buttons start. *)
Example Layout_content_example :
  (w' ← dialogLayout_Layout (of_Z 4) (example_dialog None) example_children
          example_size (example_world 0 tt);
   c ← CanvasObject_get (Some 2%nat) w';
   b ← CanvasObject_get (Some 3%nat) w';
   Some (obj_Position c, obj_Size c, fyne.Y (obj_Position b)))
  = Some (fyne.NewPos (of_Z 16) (of_Z 36),
          fyne.NewSize (of_Z 368) (of_Z 214), of_Z 254).
Proof. vm_compute. reflexivity. Qed.

(** ** Hiding and the stored callback *)

Section DialogFacts.
Context {U : Type}.

Lemma PopUp_Hide_hidden (w : World U) p pu :
  popups w !! p = Some pu -> PopUp_Hide (Some p) w = Some (hidden p pu w).
Proof.
  intros Hp. unfold PopUp_Hide, PopUp_update. simpl. rewrite Hp. reflexivity.
Qed.

Lemma hideWithResponse_created (d : dialog U) resp (w : World U) p pu :
  win d = Some p -> popups w !! p = Some pu ->
  dialog_hideWithResponse resp d w
  = Some (invoke_callback (callback d) resp (hidden p pu w)).
Proof.
  intros Hw Hp. unfold dialog_hideWithResponse.
  rewrite Hw, (PopUp_Hide_hidden _ _ _ Hp). simpl.
  destruct (callback d); reflexivity.
Qed.

(** C1: [Hide] first makes the pop-up invisible, then calls the stored
    callback, once, with [false], in the world where the pop-up is hidden;
    without a callback it only hides the pop-up. *)
Theorem Hide_callback (d : dialog U) (w : World U) p pu :
  win d = Some p -> popups w !! p = Some pu ->
  exists w1,
    PopUp_Hide (win d) w = Some w1 /\
    Visible <$> popups w1 !! p = Some false /\
    dialog_Hide d w =
      Some (match callback d with
            | Some cb => cb false w1
            | None => w1
            end).
Proof.
  intros Hw Hp. exists (hidden p pu w). split; [|split].
  - rewrite Hw. apply PopUp_Hide_hidden, Hp.
  - unfold hidden. simpl. rewrite lookup_insert_eq. reflexivity.
  - unfold dialog_Hide. rewrite (hideWithResponse_created _ _ _ _ _ Hw Hp).
    reflexivity.
Qed.

(** ** Handlers registered with [SetOnClosed] *)

Lemma register_snoc (cs : list (World U -> World U)) c (d : dialog U) :
  register (cs ++ [c]) d = dialog_SetOnClosed c (register cs d).
Proof. unfold register. rewrite fold_left_app. reflexivity. Qed.

Lemma register_win (cs : list (World U -> World U)) (d : dialog U) :
  win (register cs d) = win d.
Proof.
  induction cs as [|c cs IH] using rev_ind; [reflexivity|].
  rewrite register_snoc. exact IH.
Qed.

Lemma register_callback (cs : list (World U -> World U)) (d : dialog U) resp w :
  invoke_callback (callback (register cs d)) resp w
  = invoke_callback (callback d) resp (invoke_in_order (rev cs) w).
Proof.
  revert w. induction cs as [|c cs IH] using rev_ind; intros w; [reflexivity|].
  rewrite register_snoc, rev_app_distr. simpl.
  change (invoke_in_order (c :: rev cs) w) with (invoke_in_order (rev cs) (c w)).
  rewrite <- IH. reflexivity.
Qed.

(** C2: after any registrations [cs] the next close hides the pop-up, then
    calls every registered handler once, the newest first, and last the
    callback that was stored before, which receives the response. *)
Theorem SetOnClosed_newest_first (cs : list (World U -> World U))
    (d : dialog U) (resp : bool) (w : World U) p pu :
  win d = Some p -> popups w !! p = Some pu ->
  dialog_hideWithResponse resp (register cs d) w
  = Some (invoke_callback (callback d) resp
            (invoke_in_order (rev cs) (hidden p pu w))) /\
  dialog_Hide (register cs d) w
  = Some (invoke_callback (callback d) false
            (invoke_in_order (rev cs) (hidden p pu w))).
Proof.
  intros Hw Hp.
  assert (forall r, dialog_hideWithResponse r (register cs d) w
                    = Some (invoke_callback (callback d) r
                              (invoke_in_order (rev cs) (hidden p pu w)))) as H.
  { intros r. rewrite (hideWithResponse_created _ _ _ p pu).
    - rewrite register_callback. reflexivity.
    - rewrite register_win. exact Hw.
    - exact Hp. }
  split; [apply H | apply (H false)].
Qed.

(** ** Resizing and showing *)

(** C7: [Resize] stores the size as desired size and resizes the pop-up at
    once; a later [Show] resizes the pop-up to the desired size when that is
    not zero and then makes it visible, and only makes it visible when the
    desired size is zero.  [w2] is the world at the time of the [Show]. *)
Theorem Resize_then_Show (d : dialog U) (size : fyne.Size) (w w2 : World U)
    p pu pu2 :
  win d = Some p -> popups w !! p = Some pu -> popups w2 !! p = Some pu2 ->
  let d' := set_desiredSize size d in
  dialog_Resize size d w = Some (d', resized p pu size w) /\
  desiredSize d' = size /\
  innerSize <$> popups (resized p pu size w) !! p = Some size /\
  dialog_Show d' w2 =
    (if fyne.IsZero size then PopUp_Show (Some p) w2
     else w3 ← PopUp_Resize (Some p) size w2; PopUp_Show (Some p) w3) /\
  exists w3,
    dialog_Show d' w2 = Some w3 /\
    popups w3 !! p =
      Some {| Content := Content pu2; Visible := true;
              innerSize := if fyne.IsZero size then innerSize pu2 else size;
              redraws := redraws pu2 |}.
Proof.
  intros Hw Hp Hp2 d'. split; [|split; [|split]].
  - unfold dialog_Resize, PopUp_Resize, PopUp_update. simpl.
    rewrite Hw. simpl. rewrite Hp. reflexivity.
  - reflexivity.
  - unfold resized. simpl. rewrite lookup_insert_eq. reflexivity.
  - unfold dialog_Show. subst d'. simpl. rewrite Hw.
    destruct (fyne.IsZero size); simpl.
    + split; [reflexivity|].
      unfold PopUp_Show, PopUp_update. simpl. rewrite Hp2. simpl.
      eexists; split; [reflexivity|]. simpl. rewrite lookup_insert_eq.
      reflexivity.
    + split; [reflexivity|].
      unfold PopUp_Resize, PopUp_Show, PopUp_update. simpl. rewrite Hp2. simpl.
      rewrite lookup_insert_eq. simpl.
      eexists; split; [reflexivity|]. simpl. rewrite lookup_insert_eq.
      reflexivity.
Qed.

End DialogFacts.

(** ** No public operation answers [true] *)

Section PopUpFrame.
Context {U : Type}.

Lemma PopUp_update_app f p (w w' : World U) :
  PopUp_update f p w = Some w' -> app w' = app w.
Proof.
  unfold PopUp_update. destruct p as [r|]; simpl; [|discriminate].
  destruct (popups w !! r); simpl; [|discriminate].
  intros [= <-]. reflexivity.
Qed.

Lemma Button_SetText_app b text (w w' : World U) :
  Button_SetText b text w = Some w' -> app w' = app w.
Proof.
  unfold Button_SetText. destruct b as [r|]; simpl; [|discriminate].
  destruct (buttons w !! r); simpl; [|discriminate].
  intros [= <-]. reflexivity.
Qed.

End PopUpFrame.

Section NeverTrue.
Variable theme_Padding : float32.
Variable fyne_Max : float32 -> float32 -> float32.

Lemma recording_callback_safe (d : dialog (list Invocation)) :
  callback d = Some recording_callback -> safe d.
Proof.
  intros Hcb w Hw. rewrite Hcb. simpl. unfold no_true in *.
  rewrite elem_of_app, list_elem_of_singleton. intros [?|?]; [auto|discriminate].
Qed.

Lemma step_safe op (d d' : dialog (list Invocation)) w w' :
  quiet op -> safe d -> no_true (app w) ->
  step theme_Padding fyne_Max op d w = Some (d', w') ->
  safe d' /\ no_true (app w').
Proof.
  intros Hq Hs Hw Hstep. destruct op; simpl in Hstep.
  - unfold dialog_Show in Hstep.
    destruct (negb (fyne.IsZero (desiredSize d))); simpl in Hstep.
    + destruct (PopUp_Resize (win d) (desiredSize d) w) as [w1|] eqn:E1;
        simpl in Hstep; [|discriminate].
      destruct (PopUp_Show (win d) w1) as [w2|] eqn:E2;
        simpl in Hstep; [|discriminate].
      injection Hstep as <- <-. split; [exact Hs|].
      rewrite (PopUp_update_app _ _ _ _ E2), (PopUp_update_app _ _ _ _ E1).
      exact Hw.
    + destruct (PopUp_Show (win d) w) as [w2|] eqn:E2;
        simpl in Hstep; [|discriminate].
      injection Hstep as <- <-. split; [exact Hs|].
      rewrite (PopUp_update_app _ _ _ _ E2). exact Hw.
  - unfold dialog_Hide, dialog_hideWithResponse in Hstep.
    destruct (PopUp_Hide (win d) w) as [w1|] eqn:E1;
      simpl in Hstep; [|discriminate].
    assert (no_true (app w1)) as H1
      by (rewrite (PopUp_update_app _ _ _ _ E1); exact Hw).
    pose proof (Hs w1 H1) as Hs1. unfold invoke_callback in Hs1.
    destruct (callback d); simpl in Hstep; injection Hstep as <- <-;
      split; assumption.
  - unfold dialog_SetDismissText in Hstep.
    destruct (Button_SetText (dismiss d) text w) as [w1|] eqn:E1;
      simpl in Hstep; [|discriminate].
    destruct (PopUp_Refresh (win d) w1) as [w2|] eqn:E2;
      simpl in Hstep; [|discriminate].
    injection Hstep as <- <-. split; [exact Hs|].
    rewrite (PopUp_update_app _ _ _ _ E2), (Button_SetText_app _ _ _ _ E1).
    exact Hw.
  - injection Hstep as <- <-. split; [|exact Hw].
    intros w0 H0. simpl. apply (Hs (closed w0)), Hq, H0.
  - unfold dialog_Refresh in Hstep.
    destruct (PopUp_Refresh (win d) w) as [w2|] eqn:E2;
      simpl in Hstep; [|discriminate].
    injection Hstep as <- <-. split; [exact Hs|].
    rewrite (PopUp_update_app _ _ _ _ E2). exact Hw.
  - unfold dialog_Resize in Hstep. simpl in Hstep.
    destruct (PopUp_Resize (win d) size w) as [w2|] eqn:E2;
      simpl in Hstep; [|discriminate].
    injection Hstep as <- <-. split; [exact Hs|].
    rewrite (PopUp_update_app _ _ _ _ E2). exact Hw.
  - destruct (dialog_MinSize theme_Padding fyne_Max d w);
      simpl in Hstep; [|discriminate].
    injection Hstep as <- <-. split; assumption.
Qed.

Lemma run_safe ops (d d' : dialog (list Invocation)) w w' :
  Forall quiet ops -> safe d -> no_true (app w) ->
  run theme_Padding fyne_Max ops d w = Some (d', w') ->
  no_true (app w').
Proof.
  revert d w. induction ops as [|op ops IH]; intros d w Hq Hs Hw Hrun.
  - injection Hrun as <- <-. exact Hw.
  - apply Forall_cons in Hq as [Hop Hq]. simpl in Hrun.
    destruct (step theme_Padding fyne_Max op d w) as [[d1 w1]|] eqn:E;
      simpl in Hrun; [|discriminate].
    destruct (step_safe _ _ _ _ _ Hop Hs Hw E) as [Hs1 Hw1].
    exact (IH d1 w1 Hq Hs1 Hw1 Hrun).
Qed.

(** C10: whatever public operations are called on a dialog whose stored
    callback keeps a record of its calls, no call with [true] is ever on
    record: [Hide] is the one operation that closes, and it answers
    [false]. *)
Theorem callback_never_true ops (d d' : dialog (list Invocation)) w w' :
  callback d = Some recording_callback ->
  Forall quiet ops ->
  no_true (app w) ->
  run theme_Padding fyne_Max ops d w = Some (d', w') ->
  no_true (app w').
Proof.
  intros Hcb Hq Hw Hrun.
  exact (run_safe ops d d' w w' Hq (recording_callback_safe d Hcb) Hw Hrun).
Qed.

End NeverTrue.

(** The same, for any callback and any handlers: what the callback would do
    when called with [true] has no influence on any run. *)

Section TrueBranchUnused.
Context {U : Type}.
Variable theme_Padding : float32.
Variable fyne_Max : float32 -> float32 -> float32.

Lemma same_result_bind (r : option (World U)) (d1 d2 : dialog U) :
  agree_on_false d1 d2 ->
  same_result (w ← r; Some (d1, w)) (w ← r; Some (d2, w)).
Proof. intros H. destruct r; simpl; auto. Qed.

Lemma step_agree op (d1 d2 : dialog U) w :
  agree_on_false d1 d2 ->
  same_result (step theme_Padding fyne_Max op d1 w)
              (step theme_Padding fyne_Max op d2 w).
Proof.
  intros H. pose proof H as (Hsz & Hwin & Hlb & Hdis & Hcb).
  destruct op; simpl.
  - unfold dialog_Show. rewrite Hsz, Hwin. apply same_result_bind, H.
  - unfold dialog_Hide, dialog_hideWithResponse. rewrite Hwin.
    destruct (PopUp_Hide (win d2) w) as [w1|]; simpl; [|exact I].
    specialize (Hcb w1). unfold invoke_callback in Hcb.
    destruct (callback d1), (callback d2); simpl; split; auto.
  - unfold dialog_SetDismissText. rewrite Hwin, Hdis.
    apply same_result_bind, H.
  - split; [|reflexivity]. repeat split; auto.
    intros w0. simpl. apply Hcb.
  - unfold dialog_Refresh. rewrite Hwin. apply same_result_bind, H.
  - unfold dialog_Resize. simpl. rewrite Hwin.
    destruct (PopUp_Resize (win d2) size w); simpl; [|exact I].
    split; [|reflexivity]. repeat split; auto.
  - assert (dialog_MinSize theme_Padding fyne_Max d1 w
            = dialog_MinSize theme_Padding fyne_Max d2 w) as ->.
    { unfold dialog_MinSize, PopUp_MinSize, dialogLayout_MinSize.
      rewrite Hwin, Hlb. reflexivity. }
    destruct (dialog_MinSize theme_Padding fyne_Max d2 w); simpl; auto.
Qed.

Lemma run_agree ops (d1 d2 : dialog U) w :
  agree_on_false d1 d2 ->
  same_result (run theme_Padding fyne_Max ops d1 w)
              (run theme_Padding fyne_Max ops d2 w).
Proof.
  revert d1 d2 w. induction ops as [|op ops IH]; intros d1 d2 w H.
  - split; [exact H|reflexivity].
  - simpl. pose proof (step_agree op d1 d2 w H) as Hs.
    destruct (step theme_Padding fyne_Max op d1 w) as [[d1' w1]|],
             (step theme_Padding fyne_Max op d2 w) as [[d2' w2]|];
      simpl in *; try contradiction; [|exact I].
    destruct Hs as [H' ->]. apply IH, H'.
Qed.

(** Replacing the callback [cb] by one that always answers as [cb false]
    changes the world after no sequence of operations. *)
Lemma true_branch_unused ops (d : dialog U) w (cb : bool -> World U -> World U) :
  snd <$> run theme_Padding fyne_Max ops (set_callback (Some cb) d) w
  = snd <$> run theme_Padding fyne_Max ops
              (set_callback (Some (fun _ => cb false)) d) w.
Proof.
  assert (agree_on_false (set_callback (Some cb) d)
            (set_callback (Some (fun _ => cb false)) d)) as H
    by (repeat split; reflexivity).
  pose proof (run_agree ops _ _ w H) as Hr.
  destruct (run theme_Padding fyne_Max ops (set_callback (Some cb) d) w)
    as [[d1 w1]|],
    (run theme_Padding fyne_Max ops
       (set_callback (Some (fun _ => cb false)) d) w) as [[d2 w2]|];
    simpl in *; try contradiction; [|reflexivity].
  destruct Hr as [_ ->]. reflexivity.
Qed.

End TrueBranchUnused.

(** ** The minimum size *)

Section MinSizeFacts.
Context {U : Type}.
Variable theme_Padding : float32.
Variable fyne_Max : float32 -> float32 -> float32.

Lemma MinSize_children (d : dialog U) (w : World U) p pu ic bgr ct bt lb
    contentMin btnMin labelMin :
  win d = Some p -> popups w !! p = Some pu ->
  documented_children d (Objects (Content pu)) w ic bgr ct bt lb ->
  CanvasObject_MinSize (Some ct) w = Some contentMin ->
  CanvasObject_MinSize (Some bt) w = Some btnMin ->
  CanvasObject_MinSize (Some lb) w = Some labelMin ->
  dialog_MinSize theme_Padding fyne_Max d w
  = dialogLayout_MinSize theme_Padding fyne_Max d (Objects (Content pu)) w /\
  dialog_MinSize theme_Padding fyne_Max d w
  = Some (fyne.NewSize
            (fyne_Max (fyne_Max (fyne.Width contentMin) (fyne.Width btnMin))
                      (fyne.Width labelMin) + of_Z padWidth)%f32
            (fyne.Height contentMin + fyne.Height btnMin
             + fyne.Height labelMin + theme_Padding
             + of_Z (2 * padHeight))%f32).
Proof.
  intros Hw Hp (Hobj & _ & Hlb & _) Hc Hb Hl.
  assert (dialog_MinSize theme_Padding fyne_Max d w
          = dialogLayout_MinSize theme_Padding fyne_Max d
              (Objects (Content pu)) w) as Heq.
  { unfold dialog_MinSize, PopUp_MinSize. rewrite Hw. simpl.
    rewrite Hp. reflexivity. }
  split; [exact Heq|]. rewrite Heq, Hobj.
  unfold dialogLayout_MinSize. simpl.
  rewrite Hc, Hb, Hl. simpl. rewrite Hlb, Hl. reflexivity.
Qed.

(** C4: the minimum size of a dialog is the one its layout computes:
    the widest of content, buttons and label plus [padWidth], and the three
    heights plus the padding plus twice [padHeight]. *)
Theorem MinSize_layout (d : dialog U) (w : World U) p pu ic bgr ct bt lb
    contentMin btnMin labelMin :
  win d = Some p -> popups w !! p = Some pu ->
  documented_children d (Objects (Content pu)) w ic bgr ct bt lb ->
  CanvasObject_MinSize (Some ct) w = Some contentMin ->
  CanvasObject_MinSize (Some bt) w = Some btnMin ->
  CanvasObject_MinSize (Some lb) w = Some labelMin ->
  dialog_MinSize theme_Padding fyne_Max d w
  = dialogLayout_MinSize theme_Padding fyne_Max d (Objects (Content pu)) w /\
  dialog_MinSize theme_Padding fyne_Max d w
  = Some (fyne.NewSize
            (fyne_Max (fyne_Max (fyne.Width contentMin) (fyne.Width btnMin))
                      (fyne.Width labelMin) + of_Z padWidth)%f32
            (fyne.Height contentMin + fyne.Height btnMin
             + fyne.Height labelMin + theme_Padding
             + of_Z (2 * padHeight))%f32).
Proof. apply MinSize_children. Qed.

End MinSizeFacts.

(** ** [create] builds the documented children *)

Section CreateFacts.
Context {U : Type}.
Variable Label_MinSize : string -> fyne.Size.
Variable Image_MinSize : fyne.Size.
Variable Rectangle_MinSize : fyne.Size.
Variable PopUp_starts_visible : bool.

Lemma fresh_not_key (m : gmap ref CanvasObject) (r : ref) :
  is_Some (m !! r) -> r <> fresh (dom m).
Proof.
  intros Hr ->. apply elem_of_dom in Hr. exact (is_fresh (dom m) Hr).
Qed.

(** After [create] the pop-up exists and holds, in order, a new icon, a new
    background, the content, the buttons and a new label standing at
    (0,0); they are five different objects, and content and buttons are
    untouched. *)
Lemma create_documented (d : dialog U) (w : World U) c b par cc cb :
  content d = Some c -> parent d = Some par -> c <> b ->
  objects w !! c = Some cc -> objects w !! b = Some cb ->
  exists d' w' p pu ic bgr lb,
    dialog_create Label_MinSize Image_MinSize Rectangle_MinSize
      PopUp_starts_visible (Some b) d w
      = Some (d', w') /\
    win d' = Some p /\ popups w' !! p = Some pu /\
    documented_children d' (Objects (Content pu)) w' ic bgr c b lb /\
    callback d' = callback d /\ desiredSize d' = desiredSize d /\
    objects w' !! c = Some cc /\ objects w' !! b = Some cb /\
    objects w' !! lb = Some (new_object (Label_MinSize (title d))).
Proof.
  intros Hc Hpar Hne Hcc Hcb.
  unfold dialog_create, newThemedBackground, alloc_object, NewModalPopUp,
    dialog_Refresh, PopUp_Refresh, PopUp_update.
  simpl. rewrite Hc, Hpar. simpl.
  set (o0 := objects w).
  set (r1 := fresh (dom o0)).
  set (o1 := <[r1 := new_object Rectangle_MinSize]> o0).
  set (r2 := fresh (dom o1)).
  set (o2 := <[r2 := new_object (Label_MinSize (title d))]> o1).
  set (r3 := fresh (dom o2)).
  set (o3 := <[r3 := new_object Image_MinSize]> o2).
  set (p := fresh (dom (popups w))).
  rewrite lookup_insert_eq. simpl.
  assert (r1 <> c) as H1c by (apply not_eq_sym, fresh_not_key; eauto).
  assert (r1 <> b) as H1b by (apply not_eq_sym, fresh_not_key; eauto).
  assert (o1 !! c = Some cc) as Hc1
    by (subst o1; rewrite lookup_insert_ne; auto).
  assert (o1 !! b = Some cb) as Hb1
    by (subst o1; rewrite lookup_insert_ne; auto).
  assert (is_Some (o1 !! r1)) as H11
    by (subst o1; rewrite lookup_insert_eq; eauto).
  assert (r2 <> c) as H2c by (apply not_eq_sym, fresh_not_key; eauto).
  assert (r2 <> b) as H2b by (apply not_eq_sym, fresh_not_key; eauto).
  assert (r2 <> r1) as H21 by (apply not_eq_sym, fresh_not_key; eauto).
  assert (o2 !! c = Some cc) as Hc2
    by (subst o2; rewrite lookup_insert_ne; auto).
  assert (o2 !! b = Some cb) as Hb2
    by (subst o2; rewrite lookup_insert_ne; auto).
  assert (is_Some (o2 !! r1)) as H12
    by (subst o2; rewrite lookup_insert_ne; auto).
  assert (is_Some (o2 !! r2)) as H22
    by (subst o2; rewrite lookup_insert_eq; eauto).
  assert (r3 <> c) as H3c by (apply not_eq_sym, fresh_not_key; eauto).
  assert (r3 <> b) as H3b by (apply not_eq_sym, fresh_not_key; eauto).
  assert (r3 <> r1) as H31 by (apply not_eq_sym, fresh_not_key; eauto).
  assert (r3 <> r2) as H32 by (apply not_eq_sym, fresh_not_key; eauto).
  clear Hc1 Hb1 H11 Hc2 Hb2 H12 H22.
  eexists _, _, p, _, r3, r1, r2.
  split; [reflexivity|].
  cbn [win set_win set_label set_bg callback desiredSize label bg
       objects popups set_popups set_objects].
  split; [reflexivity|].
  split; [rewrite lookup_insert_eq; reflexivity|].
  cbn [Objects Content].
  assert (forall r x, r3 <> r -> r2 <> r -> r1 <> r -> objects w !! r = Some x ->
          <[r3 := new_object Image_MinSize]>
            (<[r2 := new_object (Label_MinSize (title d))]>
               (<[r1 := new_object Rectangle_MinSize]> (objects w))) !! r
          = Some x) as Hold.
  { intros r x ? ? ? Hr. rewrite !lookup_insert_ne by assumption. exact Hr. }
  split.
  { split; [reflexivity|]. split; [reflexivity|]. split; [reflexivity|]. split.
    - repeat (apply NoDup_cons; split); try apply NoDup_nil_2;
        rewrite ?not_elem_of_cons; repeat split;
        try apply not_elem_of_nil; auto.
    - cbn [objects popups set_popups set_objects].
      repeat (apply Forall_cons; split); try apply Forall_nil_2.
      + rewrite lookup_insert_eq. eauto.
      + rewrite lookup_insert_ne, lookup_insert_ne, lookup_insert_eq by auto.
        eauto.
      + rewrite (Hold c cc); eauto.
      + rewrite (Hold b cb); eauto.
      + rewrite lookup_insert_ne, lookup_insert_eq by auto. eauto. }
  cbn [objects popups set_popups set_objects].
  split; [reflexivity|]. split; [reflexivity|].
  split; [apply Hold; auto|]. split; [apply Hold; auto|].
  rewrite lookup_insert_ne, lookup_insert_eq by auto. reflexivity.
Qed.

End CreateFacts.

(** ** Dialogs as [create] builds them *)

Section AfterCreate.
Context {U : Type}.
Variable theme_Padding : float32.
Variable fyne_Max : float32 -> float32 -> float32.
Variable Label_MinSize : string -> fyne.Size.
Variable Image_MinSize : fyne.Size.
Variable Rectangle_MinSize : fyne.Size.
Variable PopUp_starts_visible : bool.

Lemma lookup_MinSize (w : World U) r c :
  objects w !! r = Some c -> CanvasObject_MinSize (Some r) w = Some (obj_MinSize c).
Proof.
  intros H. unfold CanvasObject_MinSize, CanvasObject_get. simpl.
  rewrite H. reflexivity.
Qed.

(** The minimum size of a dialog fresh from [create], in terms of its
    content, its buttons and its title. *)
Lemma MinSize_after_create (d : dialog U) (w : World U) c b par cc cb :
  content d = Some c -> parent d = Some par -> c <> b ->
  objects w !! c = Some cc -> objects w !! b = Some cb ->
  exists d' w',
    dialog_create Label_MinSize Image_MinSize Rectangle_MinSize
      PopUp_starts_visible (Some b) d w
      = Some (d', w') /\
    dialog_MinSize theme_Padding fyne_Max d' w'
    = Some (fyne.NewSize
              (fyne_Max (fyne_Max (fyne.Width (obj_MinSize cc))
                                  (fyne.Width (obj_MinSize cb)))
                        (fyne.Width (Label_MinSize (title d)))
               + of_Z padWidth)%f32
              (fyne.Height (obj_MinSize cc) + fyne.Height (obj_MinSize cb)
               + fyne.Height (Label_MinSize (title d)) + theme_Padding
               + of_Z (2 * padHeight))%f32).
Proof.
  intros Hc Hpar Hne Hcc Hcb.
  destruct (create_documented Label_MinSize Image_MinSize Rectangle_MinSize
              PopUp_starts_visible
              d w c b par cc cb Hc Hpar Hne Hcc Hcb)
    as (d' & w' & p & pu & ic & bgr & lb & Hrun & Hwin & Hpu & Hdoc & _ & _
        & Hc' & Hb' & Hl').
  exists d', w'. split; [exact Hrun|].
  apply (MinSize_children theme_Padding fyne_Max d' w' p pu ic bgr c b lb
           _ _ _ Hwin Hpu Hdoc (lookup_MinSize _ _ _ Hc')
           (lookup_MinSize _ _ _ Hb') (lookup_MinSize _ _ _ Hl')).
Qed.

(** Laid out fresh from [create], the label stands at [y = 0] and the
    content fills the room between the label and the buttons:
    its height is
    [(button top - padding) - (label minimum height + padHeight)]. *)
Lemma Layout_after_create (d : dialog U) (w : World U) size c b par cc cb :
  content d = Some c -> parent d = Some par -> c <> b ->
  objects w !! c = Some cc -> objects w !! b = Some cb ->
  exists d' w1 p pu w2 btnPos,
    dialog_create Label_MinSize Image_MinSize Rectangle_MinSize
      PopUp_starts_visible (Some b) d w
      = Some (d', w1) /\
    win d' = Some p /\ popups w1 !! p = Some pu /\
    dialogLayout_Layout theme_Padding d' (Objects (Content pu)) size w1
      = Some w2 /\
    CanvasObject_Position (Some b) w2 = Some btnPos /\
    CanvasObject_Size (Some c) w2 =
      Some (fyne.NewSize
              (fyne.Width size - of_Z padWidth)%f32
              ((fyne.Y btnPos - theme_Padding)
               - (fyne.Height (Label_MinSize (title d)) + of_Z padHeight))%f32).
Proof.
  intros Hc Hpar Hne Hcc Hcb.
  destruct (create_documented Label_MinSize Image_MinSize Rectangle_MinSize
              PopUp_starts_visible
              d w c b par cc cb Hc Hpar Hne Hcc Hcb)
    as (d' & w1 & p & pu & ic & bgr & lb & Hrun & Hwin & Hpu & Hdoc & _ & _
        & Hc' & Hb' & Hl').
  destruct (Layout_label_at_origin theme_Padding d' (Objects (Content pu)) size
              w1 ic bgr c b lb (Label_MinSize (title d))
              (fyne.NewPos zero zero) Hdoc)
    as (w2 & btnPos & Hlay & Hbtn & Hsize).
  - apply (lookup_MinSize _ _ _ Hl').
  - unfold CanvasObject_Position, CanvasObject_get. simpl. rewrite Hl'.
    reflexivity.
  - reflexivity.
  - exists d', w1, p, pu, w2, btnPos. auto 10.
Qed.

End AfterCreate.

(** ** The themed background *)

Section ThemedBackgroundFacts.
Variable Color : Type.
Variable ToNRGBA : Color -> Z * Z * Z * Z.

(** C8: after [Refresh] the rectangle is filled with the [NRGBA] colour
    whose red, green and blue are those of the theme's overlay colour and
    whose alpha is 230; the overlay colour's own alpha plays no part. *)
Theorem Refresh_fill (overlay : Color)
    (renderer : themedBackgroundRenderer Color) :
  (let '(r, g, b, _) := ToNRGBA overlay in
   rect_FillColor (rect (themedBackgroundRenderer_Refresh ToNRGBA overlay
                           renderer))
   = NRGBAColor {| R := uint8 r; G := uint8 g; B := uint8 b; A := 230 |} /\
   0 <= uint8 r < 256 /\ 0 <= uint8 g < 256 /\ 0 <= uint8 b < 256) /\
  (forall alpha : Z -> Z,
     themedBackgroundRenderer_Refresh
       (fun c => let '(r, g, b, a) := ToNRGBA c in (r, g, b, alpha a))
       overlay renderer
     = themedBackgroundRenderer_Refresh ToNRGBA overlay renderer).
Proof.
  unfold themedBackgroundRenderer_Refresh.
  destruct (ToNRGBA overlay) as [[[r g] b] a]. simpl.
  split; [|reflexivity]. split; [reflexivity|].
  unfold uint8. repeat split; apply Z.mod_pos_bound; reflexivity.
Qed.

(** A half-transparent red overlay, components given as they are: the fill
    is red with alpha 230, not 128. *)
Example Refresh_example :
  rect_FillColor
    (rect (themedBackgroundRenderer_Refresh (fun c : Z * Z * Z * Z => c)
             (255, 0, 0, 128)
             (themedBackground_CreateRenderer (fyne.NewSize zero zero)
                (255, 0, 0, 128))))
  = NRGBAColor {| R := 255; G := 0; B := 0; A := 230 |}.
Proof. reflexivity. Qed.

End ThemedBackgroundFacts.

(** ** The packager stops at the first error *)

Section PackagingFacts.
Import commands.
Variables (Sys error File Response : Type).
Variable perform :
  forall c : Call File Response, Sys -> Sys * @Reply error File Response c.
Variable filepath_Join : string -> string -> string.

(** C9: every run of [packageGopherJS] is one of the runs the spec allows:
    the calls are made in the fixed order under the [gopherjs]
    subdirectory, the first call that reports an error is the last one made
    (but for the deferred closes) and its error is the result, no call is
    made twice, and the debug script is fetched exactly when the packager is
    not in release mode. *)
Theorem packageGopherJS_outcome (p : Packager) (sys : Sys) :
  let '(_, log, result) := packageGopherJS perform filepath_Join p (sys, []) in
  outcome filepath_Join p log result.
Proof.
  cbv beta iota zeta delta [packageGopherJS bind do ret defer discard].
  destruct (perform (EnsureSubDir (dir p) "gopherjs") sys) as [s1 appDir].
  destruct (perform (Create (filepath_Join appDir "index.html")) s1)
    as [s2 [f [e|]]]; simpl; [constructor|].
  destruct (perform (Execute f _) s2) as [s3 [e|]]; simpl; [constructor|].
  destruct (perform (CopyFile (icon p) _) s3) as [s4 [e|]]; simpl;
    [constructor|].
  destruct (perform (CopyFile (exe p) _) s4) as [s5 [e|]]; simpl;
    [constructor|].
  destruct (negb (release p)) eqn:Hneg; simpl.
  2: { apply released. apply negb_false_iff, Hneg. }
  assert (release p = false) as Hrel by apply negb_true_iff, Hneg.
  destruct (perform (Get webglDebugURL) s5) as [s6 [r [e|]]]; simpl;
    [apply script_fetch_fails; exact Hrel|].
  destruct (perform (Create (filepath_Join appDir "webgl-debug.js")) s6)
    as [s7 [out [e|]]]; simpl.
  - destruct (perform (CloseBody r) s7) as [s8 c1]; simpl.
    apply script_create_fails. exact Hrel.
  - destruct (perform (Copy out r) s7) as [s8 [n err]]; simpl.
    destruct (perform (CloseFile out) s8) as [s9 c1]; simpl.
    destruct (perform (CloseBody r) s9) as [s10 c2]; simpl.
    apply script_copied_or_not. exact Hrel.
Qed.

(** On the success path the entry file, the icon and the executable are
    written, and the script is fetched exactly when [release] is off. *)
Lemma outcome_success (p : Packager) (log : list (Event error File Response)) :
  outcome filepath_Join p log None ->
  exists appDir f,
    firstn 5 log =
      [subdir_ensured p appDir; index_created filepath_Join appDir f None;
       index_written p f None; icon_copied filepath_Join p appDir None;
       exe_copied filepath_Join p appDir None] /\
    if release p then skipn 5 log = []
    else exists r out n c1 c2,
        skipn 5 log =
          [script_fetched r None; script_created filepath_Join appDir out None;
           script_copied out r n None; file_closed out c1; body_closed r c2].
Proof.
  inversion 1 as [| | | |appDir f Hrel| | |appDir f r out n err c1 c2 Hrel];
    subst; exists appDir, f; (split; [reflexivity|]); rewrite Hrel.
  - reflexivity.
  - exists r, out, n, c1, c2. reflexivity.
Qed.

End PackagingFacts.

(** ** The concrete dialog at work *)

Lemma Hide_callback_witness :
  (exists w1,
     PopUp_Hide (Some 0%nat) (example_world 0 []) = Some w1 /\
     Visible <$> popups w1 !! 0%nat = Some false /\
     dialog_Hide example_start (example_world 0 [])
     = Some (recording_callback false w1)) /\
  app <$> dialog_Hide example_start (example_world 0 [])
  = Some [Callback false].
Proof.
  split.
  - apply (Hide_callback example_start (example_world 0 []) 0%nat
             example_popup); reflexivity.
  - vm_compute. reflexivity.
Defined.

Lemma SetOnClosed_newest_first_witness :
  let cs := [recording_closed 1; recording_closed 2] in
  let w := example_world 0 [] in
  (dialog_hideWithResponse true (register cs example_start) w
   = Some (recording_callback true
             (invoke_in_order (rev cs) (hidden 0%nat example_popup w))) /\
   dialog_Hide (register cs example_start) w
   = Some (recording_callback false
             (invoke_in_order (rev cs) (hidden 0%nat example_popup w)))) /\
  app <$> dialog_Hide (register cs example_start) w
  = Some [Closed 2; Closed 1; Callback false].
Proof.
  split.
  - apply (SetOnClosed_newest_first
             [recording_closed 1; recording_closed 2] example_start true
             (example_world 0 []) 0%nat example_popup); reflexivity.
  - vm_compute. reflexivity.
Defined.

Lemma Resize_then_Show_witness :
  let size := fyne.NewSize (of_Z 640) (of_Z 480) in
  let w := example_world 0 tt in
  let d' := set_desiredSize size (example_dialog None) in
  let w2 := hidden 0%nat example_popup w in
  dialog_Resize size (example_dialog None) w
  = Some (d', resized 0%nat example_popup size w) /\
  desiredSize d' = size /\
  innerSize <$> popups (resized 0%nat example_popup size w) !! 0%nat
  = Some size /\
  dialog_Show d' w2 =
    (if fyne.IsZero size then PopUp_Show (Some 0%nat) w2
     else w3 ← PopUp_Resize (Some 0%nat) size w2; PopUp_Show (Some 0%nat) w3) /\
  exists w3,
    dialog_Show d' w2 = Some w3 /\
    popups w3 !! 0%nat =
      Some {| Content := {| Objects := example_children |}; Visible := true;
              innerSize := if fyne.IsZero size then fyne.NewSize zero zero
                           else size;
              redraws := 0%nat |}.
Proof.
  apply (Resize_then_Show (example_dialog None)
           (fyne.NewSize (of_Z 640) (of_Z 480)) (example_world 0 tt)
           (hidden 0%nat example_popup (example_world 0 tt))
           0%nat example_popup
           {| Content := {| Objects := example_children |}; Visible := false;
              innerSize := fyne.NewSize zero zero; redraws := 0%nat |});
    reflexivity.
Defined.

(** The pop-up shown after [Resize] to 640 x 480 is 640 x 480. *)
Example Resize_then_Show_example :
  ('(d, w) ← dialog_Resize (fyne.NewSize (of_Z 640) (of_Z 480))
               (example_dialog None) (example_world 0 tt);
   w ← dialog_Show d w;
   pu ← popups w !! 0%nat;
   Some (Visible pu, innerSize pu))
  = Some (true, fyne.NewSize (of_Z 640) (of_Z 480)).
Proof. vm_compute. reflexivity. Qed.

Lemma callback_never_true_witness :
  run (of_Z 4) example_Max example_session example_start (example_world 0 [])
  = Some example_end /\
  app (snd example_end) = [Closed 1; Callback false; Closed 1; Callback false] /\
  no_true (app (snd example_end)).
Proof.
  assert (run (of_Z 4) example_Max example_session example_start
            (example_world 0 []) = Some (fst example_end, snd example_end))
    as Hrun by (vm_compute; reflexivity).
  split; [rewrite Hrun; destruct example_end; reflexivity|].
  split; [vm_compute; reflexivity|].
  apply (callback_never_true (of_Z 4) example_Max example_session
           example_start (fst example_end) (example_world 0 [])
           (snd example_end)).
  - reflexivity.
  - repeat constructor. intros w Hw. unfold no_true in *. simpl.
    rewrite elem_of_app, list_elem_of_singleton.
    intros [?|?]; [auto|discriminate].
  - unfold no_true. simpl. apply not_elem_of_nil.
  - exact Hrun.
Defined.

Lemma MinSize_layout_witness :
  dialog_MinSize (of_Z 4) example_Max (example_dialog None) (example_world 0 tt)
  = dialogLayout_MinSize (of_Z 4) example_Max (example_dialog None)
      example_children (example_world 0 tt) /\
  dialog_MinSize (of_Z 4) example_Max (example_dialog None) (example_world 0 tt)
  = Some (fyne.NewSize
            (example_Max (example_Max (of_Z 120) (of_Z 80)) (of_Z 50)
             + of_Z padWidth)%f32
            (of_Z 40 + of_Z 30 + of_Z 20 + of_Z 4 + of_Z (2 * padHeight))%f32).
Proof.
  apply (MinSize_layout (of_Z 4) example_Max (example_dialog None)
           (example_world 0 tt) 0%nat example_popup 0%nat 1%nat 2%nat 3%nat
           4%nat (fyne.NewSize (of_Z 120) (of_Z 40))
           (fyne.NewSize (of_Z 80) (of_Z 30))
           (fyne.NewSize (of_Z 50) (of_Z 20)));
    try reflexivity.
  example_documented.
Defined.

(** The minimum size of the concrete dialog is 152 x 126. *)
Example MinSize_example :
  dialog_MinSize (of_Z 4) example_Max (example_dialog None) (example_world 0 tt)
  = Some (fyne.NewSize (of_Z 152) (of_Z 126)).
Proof. vm_compute. reflexivity. Qed.

(** The dialog built by [newDialog] and [create]: its message is 104 wide,
    so its minimum size is 136 x 106; laid out in 400 x 300 its content
    spans from 36 to 250, the buttons starting at 254. *)
Example created_MinSize :
  ('(d, w) ← example_created; dialog_MinSize (of_Z 4) example_Max d w)
  = Some (fyne.NewSize (of_Z 136) (of_Z 106)).
Proof. vm_compute. reflexivity. Qed.

Example created_Layout :
  ('(d, w) ← example_created;
   pu ← win d ≫= (popups w !!.);
   w ← dialogLayout_Layout (of_Z 4) d (Objects (Content pu)) example_size w;
   c ← CanvasObject_get (content d) w;
   Some (obj_Position c, obj_Size c))
  = Some (fyne.NewPos (of_Z 16) (of_Z 36),
          fyne.NewSize (of_Z 368) (of_Z 214)).
Proof. vm_compute. reflexivity. Qed.

(** ** The packager at work *)

(** Release mode, nothing broken: five calls, no download, no error. *)
Example package_release :
  let '(_, log, result) :=
    commands.packageGopherJS commands.example_perform commands.example_Join
      (commands.example_packager true) ([], []) in
  result = None /\
  map commands.call log =
    [commands.EnsureSubDir "out" "gopherjs";
     commands.Create "out/gopherjs/index.html";
     commands.Execute "out/gopherjs/index.html"
       {| commands.GopherJSFile := "app.js"; commands.IsReleased := true;
          commands.HasGopherJS := true |};
     commands.CopyFile "Icon.png" "out/gopherjs/icon.png";
     commands.CopyFile "app" "out/gopherjs/app.js"].
Proof. vm_compute. split; reflexivity. Qed.

(** Debug mode, the icon cannot be written: the run ends after four calls
    with that error; neither the executable nor the script is touched. *)
Example package_icon_broken :
  let '(_, log, result) :=
    commands.packageGopherJS commands.example_perform commands.example_Join
      (commands.example_packager false) (["out/gopherjs/icon.png"], []) in
  result = Some "cannot write out/gopherjs/icon.png" /\
  map commands.call log =
    [commands.EnsureSubDir "out" "gopherjs";
     commands.Create "out/gopherjs/index.html";
     commands.Execute "out/gopherjs/index.html"
       {| commands.GopherJSFile := "app.js"; commands.IsReleased := false;
          commands.HasGopherJS := true |};
     commands.CopyFile "Icon.png" "out/gopherjs/icon.png"].
Proof. vm_compute. split; reflexivity. Qed.

(** Debug mode, nothing broken: the script is fetched, written and both
    handles are closed, the file first. *)
Example package_debug :
  let '(_, log, result) :=
    commands.packageGopherJS commands.example_perform commands.example_Join
      (commands.example_packager false) ([], []) in
  result = None /\
  drop 5 (map commands.call log) =
    [commands.Get commands.webglDebugURL;
     commands.Create "out/gopherjs/webgl-debug.js";
     commands.Copy "out/gopherjs/webgl-debug.js" commands.webglDebugURL;
     commands.CloseFile "out/gopherjs/webgl-debug.js";
     commands.CloseBody commands.webglDebugURL].
Proof. vm_compute. split; reflexivity. Qed.

(** * Further properties *)

(** ** The layout as a whole *)

Section LayoutWhole.
Context {U : Type}.
Variable theme_Padding : float32.

Lemma Layout_exact (d : dialog U) obj size (w : World U) ic bgr ct bt lb
    cic cbg cct cbt clb :
  documented_children d obj w ic bgr ct bt lb ->
  objects w !! ic = Some cic -> objects w !! bgr = Some cbg ->
  objects w !! ct = Some cct -> objects w !! bt = Some cbt ->
  objects w !! lb = Some clb ->
  dialogLayout_Layout theme_Padding d obj size w
  = Some (laid_out theme_Padding size ic bgr ct bt cic cbg cct cbt clb w).
Proof.
  intros (-> & Hbg & Hlb & Hnd & _) Hic Hbgr Hct Hbt Hlbl.
  repeat match goal with
         | H : NoDup (_ :: _) |- _ => apply NoDup_cons in H as [? H]
         end.
  repeat match goal with
         | H : _ ∉ _ :: _ |- _ => apply not_elem_of_cons in H as [? H]
         end.
  unfold dialogLayout_Layout, CanvasObject_Move, CanvasObject_Resize,
    CanvasObject_MinSize, CanvasObject_Position, CanvasObject_get.
  rewrite Hbg, Hlb. simpl.
  repeat (simplify_map_eq; simpl).
  unfold laid_out, set_objects, moved. simpl.
  do 2 f_equal. rewrite !insert_insert_eq. reflexivity.
Qed.

Lemma insert4_absorb (m : gmap ref CanvasObject) k1 k2 k3 k4
    a1 a2 a3 a4 b1 b2 b3 b4 :
  <[k1 := a1]> (<[k2 := a2]> (<[k3 := a3]> (<[k4 := a4]>
    (<[k1 := b1]> (<[k2 := b2]> (<[k3 := b3]> (<[k4 := b4]> m)))))))
  = <[k1 := a1]> (<[k2 := a2]> (<[k3 := a3]> (<[k4 := a4]> m))).
Proof.
  apply map_eq. intros k. rewrite !lookup_insert.
  repeat case_decide; reflexivity.
Qed.

Lemma laid_out_lookup size (w : World U) ic bgr ct bt lb
    cic cbg cct cbt clb :
  NoDup [ic; bgr; ct; bt; lb] ->
  objects w !! lb = Some clb ->
  let w1 := laid_out theme_Padding size ic bgr ct bt cic cbg cct cbt clb w in
  (exists c, objects w1 !! ic = Some c /\ obj_MinSize c = obj_MinSize cic) /\
  (exists c, objects w1 !! bgr = Some c /\ obj_MinSize c = obj_MinSize cbg) /\
  (exists c, objects w1 !! ct = Some c /\ obj_MinSize c = obj_MinSize cct) /\
  (exists c, objects w1 !! bt = Some c /\ obj_MinSize c = obj_MinSize cbt) /\
  objects w1 !! lb = Some clb.
Proof.
  intros Hnd Hlbl.
  repeat match goal with
         | H : NoDup (_ :: _) |- _ => apply NoDup_cons in H as [? H]
         end.
  repeat match goal with
         | H : _ ∉ _ :: _ |- _ => apply not_elem_of_cons in H as [? H]
         end.
  unfold laid_out, set_objects. simpl.
  assert (forall (m : gmap ref CanvasObject) a1 a2 a3 a4,
            <[ct:=a1]> (<[bt:=a2]> (<[ic:=a3]> (<[bgr:=a4]> m))) !! ic
            = Some a3) as Eic
    by (intros; rewrite !lookup_insert_ne, lookup_insert_eq by auto;
        reflexivity).
  assert (forall (m : gmap ref CanvasObject) a1 a2 a3 a4,
            <[ct:=a1]> (<[bt:=a2]> (<[ic:=a3]> (<[bgr:=a4]> m))) !! bgr
            = Some a4) as Ebg
    by (intros; rewrite !lookup_insert_ne, lookup_insert_eq by auto;
        reflexivity).
  assert (forall (m : gmap ref CanvasObject) a1 a2 a3 a4,
            <[ct:=a1]> (<[bt:=a2]> (<[ic:=a3]> (<[bgr:=a4]> m))) !! ct
            = Some a1) as Ect
    by (intros; rewrite lookup_insert_eq; reflexivity).
  assert (forall (m : gmap ref CanvasObject) a1 a2 a3 a4,
            <[ct:=a1]> (<[bt:=a2]> (<[ic:=a3]> (<[bgr:=a4]> m))) !! bt
            = Some a2) as Ebt
    by (intros; rewrite lookup_insert_ne, lookup_insert_eq by auto;
        reflexivity).
  rewrite Eic, Ebg, Ect, Ebt.
  split; [eexists; split; reflexivity|].
  split; [eexists; split; reflexivity|].
  split; [eexists; split; reflexivity|].
  split; [eexists; split; reflexivity|].
  rewrite !lookup_insert_ne by auto. exact Hlbl.
Qed.

(** X1: laying out again for another size gives what laying out for that
    size alone gives: the result depends on the last container size only,
    and laying out twice for one size changes nothing more. *)
Theorem Layout_last_wins (d : dialog U) obj size1 size2 (w : World U)
    ic bgr ct bt lb :
  documented_children d obj w ic bgr ct bt lb ->
  exists w2,
    dialogLayout_Layout theme_Padding d obj size2 w = Some w2 /\
    (w1 ← dialogLayout_Layout theme_Padding d obj size1 w;
     dialogLayout_Layout theme_Padding d obj size2 w1) = Some w2.
Proof.
  intros H.
  destruct (documented_lookup d obj w ic bgr ct bt lb H)
    as (cic & cbg & cct & cbt & clb & Hic & Hbgr & Hct & Hbt & Hlbl).
  eexists. split; [apply (Layout_exact d obj size2 w ic bgr ct bt lb);
                   eassumption|].
  rewrite (Layout_exact d obj size1 w ic bgr ct bt lb cic cbg cct cbt clb)
    by assumption.
  simpl.
  pose proof H as (Hobj & Hbg & Hlb & Hnd & _).
  destruct (laid_out_lookup size1 w ic bgr ct bt lb cic cbg cct cbt clb
              Hnd Hlbl)
    as ((c1 & H1 & M1) & (c2 & H2 & M2) & (c3 & H3 & M3) & (c4 & H4 & M4) & H5).
  rewrite (Layout_exact d obj size2 _ ic bgr ct bt lb c1 c2 c3 c4 clb);
    try assumption.
  - unfold laid_out, moved, set_objects. simpl.
    rewrite M1, M2, M3, M4. do 2 f_equal. apply insert4_absorb.
  - split; [exact Hobj|]. split; [exact Hbg|]. split; [exact Hlb|].
    split; [exact Hnd|].
    repeat (apply Forall_cons; split); try apply Forall_nil_2; eauto.
Qed.

Lemma Layout_untouched (d : dialog U) obj size (w : World U) ic bgr ct bt lb :
  documented_children d obj w ic bgr ct bt lb ->
  exists w',
    dialogLayout_Layout theme_Padding d obj size w = Some w' /\
    objects w' !! lb = objects w !! lb /\
    (forall r, r ∉ [ic; bgr; ct; bt] -> objects w' !! r = objects w !! r) /\
    (forall r, obj_MinSize <$> objects w' !! r = obj_MinSize <$> objects w !! r) /\
    dom (objects w') = dom (objects w) /\
    popups w' = popups w /\ buttons w' = buttons w /\ app w' = app w.
Proof.
  intros H.
  destruct (documented_lookup d obj w ic bgr ct bt lb H)
    as (cic & cbg & cct & cbt & clb & Hic & Hbgr & Hct & Hbt & Hlbl).
  eexists. split; [apply (Layout_exact d obj size w ic bgr ct bt lb);
                   eassumption|].
  destruct H as (_ & _ & _ & Hnd & _).
  assert (forall r, r ∉ [ic; bgr; ct; bt] ->
          objects (laid_out theme_Padding size ic bgr ct bt
                     cic cbg cct cbt clb w) !! r = objects w !! r) as Hfr.
  { intros r Hr. rewrite !not_elem_of_cons in Hr.
    destruct Hr as (? & ? & ? & ? & _).
    unfold laid_out, set_objects. simpl.
    rewrite !lookup_insert_ne by auto. reflexivity. }
  split; [|split; [exact Hfr|split; [|split]]].
  - apply Hfr.
    repeat match goal with
           | H : NoDup (_ :: _) |- _ => apply NoDup_cons in H as [? H]
           end.
    repeat match goal with
           | H : _ ∉ _ :: _ |- _ => apply not_elem_of_cons in H as [? H]
           end.
    rewrite !not_elem_of_cons. repeat split; auto; apply not_elem_of_nil.
  - intros r. unfold laid_out, set_objects. simpl.
    rewrite !lookup_insert.
    repeat case_decide; subst; simpl;
      rewrite ?Hic, ?Hbgr, ?Hct, ?Hbt; reflexivity.
  - unfold laid_out, set_objects. simpl. rewrite !dom_insert_L.
    pose proof (elem_of_dom_2 _ _ _ Hic). pose proof (elem_of_dom_2 _ _ _ Hbgr).
    pose proof (elem_of_dom_2 _ _ _ Hct). pose proof (elem_of_dom_2 _ _ _ Hbt).
    apply set_eq. intros x. rewrite !elem_of_union, !elem_of_singleton.
    split; [intros [->|[->|[->|[->|?]]]]; assumption|auto].
  - repeat split.
Qed.


(** X2: the layout moves and resizes the icon, the background, the content
    and the buttons and nothing else: the label and every other object of
    the store stay as they were, no object is added or removed, and pop-ups,
    buttons and the application state are not changed. *)
Theorem Layout_frame (d : dialog U) obj size (w : World U) ic bgr ct bt lb :
  documented_children d obj w ic bgr ct bt lb ->
  exists w',
    dialogLayout_Layout theme_Padding d obj size w = Some w' /\
    objects w' !! lb = objects w !! lb /\
    (forall r, r ∉ [ic; bgr; ct; bt] -> objects w' !! r = objects w !! r) /\
    dom (objects w') = dom (objects w) /\
    popups w' = popups w /\ buttons w' = buttons w /\ app w' = app w.
Proof.
  intros H.
  destruct (Layout_untouched d obj size w ic bgr ct bt lb H)
    as (w' & Hrun & Hlb & Hfr & _ & Hdom & Hrest).
  exists w'. auto.
Qed.

Section WithMax.
Variable fyne_Max : float32 -> float32 -> float32.

(** X3: with fewer than five children [MinSize] panics, on [obj[4]] at
    the latest. *)
Theorem MinSize_too_few (d : dialog U) obj (w : World U) :
  (length obj <= 4)%nat ->
  dialogLayout_MinSize theme_Padding fyne_Max d obj w = None.
Proof.
  intros Hlen. unfold dialogLayout_MinSize.
  rewrite (proj2 (lookup_ge_None obj 4) Hlen).
  destruct (obj !! 2%nat) as [o2|]; simpl; [|reflexivity].
  destruct (CanvasObject_MinSize o2 w); simpl; [|reflexivity].
  destruct (obj !! 3%nat) as [o3|]; simpl; [|reflexivity].
  destruct (CanvasObject_MinSize o3 w); reflexivity.
Qed.

End WithMax.

(** X4: with fewer than four children [Layout] panics, on [obj[3]] at the
    latest. *)
Theorem Layout_too_few (d : dialog U) obj size (w : World U) :
  (length obj <= 3)%nat ->
  dialogLayout_Layout theme_Padding d obj size w = None.
Proof.
  intros Hlen3. unfold dialogLayout_Layout.
  destruct (CanvasObject_Move (bg d) _ w) as [w1|]; simpl; [|reflexivity].
  destruct (CanvasObject_Resize (bg d) size w1) as [w2|]; simpl;
    [|reflexivity].
  rewrite (proj2 (lookup_ge_None obj 3) Hlen3). reflexivity.
Qed.

End LayoutWhole.

(** ** What the operations leave alone *)

Section OperationFrames.
Context {U : Type}.
Variable theme_Padding : float32.
Variable fyne_Max : float32 -> float32 -> float32.

Lemma step_app op (d d' : dialog U) (w w' : World U) :
  op <> OpHide ->
  step theme_Padding fyne_Max op d w = Some (d', w') ->
  app w' = app w.
Proof.
  intros Hop Hstep.
  destruct op; simpl in Hstep; try (exfalso; apply Hop; reflexivity).
  - unfold dialog_Show in Hstep.
    destruct (negb (fyne.IsZero (desiredSize d))); simpl in Hstep.
    + destruct (PopUp_Resize (win d) (desiredSize d) w) as [w1|] eqn:E1;
        simpl in Hstep; [|discriminate].
      destruct (PopUp_Show (win d) w1) as [w2|] eqn:E2;
        simpl in Hstep; [|discriminate].
      injection Hstep as <- <-.
      rewrite (PopUp_update_app _ _ _ _ E2), (PopUp_update_app _ _ _ _ E1).
      reflexivity.
    + destruct (PopUp_Show (win d) w) as [w2|] eqn:E2;
        simpl in Hstep; [|discriminate].
      injection Hstep as <- <-. apply (PopUp_update_app _ _ _ _ E2).
  - unfold dialog_SetDismissText in Hstep.
    destruct (Button_SetText (dismiss d) text w) as [w1|] eqn:E1;
      simpl in Hstep; [|discriminate].
    destruct (PopUp_Refresh (win d) w1) as [w2|] eqn:E2;
      simpl in Hstep; [|discriminate].
    injection Hstep as <- <-.
    rewrite (PopUp_update_app _ _ _ _ E2), (Button_SetText_app _ _ _ _ E1).
    reflexivity.
  - injection Hstep as <- <-. reflexivity.
  - unfold dialog_Refresh in Hstep.
    destruct (PopUp_Refresh (win d) w) as [w2|] eqn:E2;
      simpl in Hstep; [|discriminate].
    injection Hstep as <- <-. apply (PopUp_update_app _ _ _ _ E2).
  - unfold dialog_Resize in Hstep. simpl in Hstep.
    destruct (PopUp_Resize (win d) size w) as [w2|] eqn:E2;
      simpl in Hstep; [|discriminate].
    injection Hstep as <- <-. apply (PopUp_update_app _ _ _ _ E2).
  - destruct (dialog_MinSize theme_Padding fyne_Max d w);
      simpl in Hstep; [|discriminate].
    injection Hstep as <- <-. reflexivity.
Qed.

(** X5: [Hide] is the only operation that calls anything back: a sequence
    of operations without [Hide], registrations with [SetOnClosed] included,
    runs no handler and leaves the application state as it was. *)
Theorem only_Hide_calls_back ops (d d' : dialog U) (w w' : World U) :
  OpHide ∉ ops ->
  run theme_Padding fyne_Max ops d w = Some (d', w') ->
  app w' = app w.
Proof.
  revert d w. induction ops as [|op ops IH]; intros d w Hno Hrun.
  - injection Hrun as <- <-. reflexivity.
  - apply not_elem_of_cons in Hno as [Hop Hno]. simpl in Hrun.
    destruct (step theme_Padding fyne_Max op d w) as [[d1 w1]|] eqn:E;
      simpl in Hrun; [|discriminate].
    rewrite (IH d1 w1 Hno Hrun).
    apply (step_app op d d1 w w1); [congruence|exact E].
Qed.

(** X7: before [create] has set the pop-up, every operation that touches it
    panics. *)
Theorem before_create (d : dialog U) (w : World U) size text :
  win d = None ->
  dialog_Show d w = None /\ dialog_Hide d w = None /\
  dialog_Refresh d w = None /\ dialog_Resize size d w = None /\
  dialog_SetDismissText text d w = None /\
  dialog_MinSize theme_Padding fyne_Max d w = None.
Proof.
  intros Hw.
  unfold dialog_Show, dialog_Hide, dialog_hideWithResponse, dialog_Refresh,
    dialog_Resize, dialog_SetDismissText, dialog_MinSize, PopUp_MinSize.
  simpl. rewrite Hw. repeat split.
  - destruct (negb (fyne.IsZero (desiredSize d))); reflexivity.
  - destruct (Button_SetText (dismiss d) text w); reflexivity.
Qed.

End OperationFrames.

(** ** Closing again and again *)

Section Closing.
Variable theme_Padding : float32.
Variable fyne_Max : float32 -> float32 -> float32.

Lemma Hide_recorded (d : dialog (list Invocation)) w p pu :
  callback d = Some recording_callback ->
  win d = Some p -> popups w !! p = Some pu ->
  exists w1 pu1,
    dialog_Hide d w = Some w1 /\ popups w1 !! p = Some pu1 /\
    Visible pu1 = false /\ app w1 = app w ++ [Callback false].
Proof.
  intros Hcb Hw Hp. unfold dialog_Hide.
  rewrite (hideWithResponse_created d false w p pu Hw Hp), Hcb.
  eexists _, _. split; [reflexivity|]. simpl.
  rewrite lookup_insert_eq. repeat split.
Qed.

(** X8: [Hide] has no memory: called [n] times in a row, on a pop-up that
    is hidden from the first call on, it calls the stored callback [n]
    times, each time with [false]. *)
Theorem Hide_every_time n (d : dialog (list Invocation)) w p pu :
  callback d = Some recording_callback ->
  win d = Some p -> popups w !! p = Some pu ->
  exists w',
    run theme_Padding fyne_Max (repeat OpHide n) d w = Some (d, w') /\
    app w' = app w ++ repeat (Callback false) n.
Proof.
  intros Hcb Hw. revert w pu. induction n as [|n IH]; intros w pu Hp.
  - exists w. split; [reflexivity|]. simpl. rewrite app_nil_r. reflexivity.
  - destruct (Hide_recorded d w p pu Hcb Hw Hp)
      as (w1 & pu1 & Hhide & Hp1 & _ & Happ).
    destruct (IH w1 pu1 Hp1) as (w' & Hrun & Happ').
    exists w'. split.
    + simpl. rewrite Hhide. simpl. exact Hrun.
    + rewrite Happ', Happ, <- app_assoc. reflexivity.
Qed.

End Closing.

(** ** Building a dialog *)

Section Building.
Context {U : Type}.
Variable theme_Padding : float32.
Variable Label_MinSize : string -> fyne.Size.
Variable Image_MinSize : fyne.Size.
Variable Rectangle_MinSize : fyne.Size.
Variable PopUp_starts_visible : bool.

Lemma fresh_None (m : gmap ref CanvasObject) : m !! fresh (dom m) = None.
Proof. apply not_elem_of_dom, is_fresh. Qed.

Lemma create_new_children (d : dialog U) (w : World U) c b par cc cb :
  content d = Some c -> parent d = Some par -> c <> b ->
  objects w !! c = Some cc -> objects w !! b = Some cb ->
  exists d' w' p pu ic bgr lb,
    dialog_create Label_MinSize Image_MinSize Rectangle_MinSize
      PopUp_starts_visible (Some b) d w
      = Some (d', w') /\
    win d' = Some p /\ popups w' !! p = Some pu /\
    documented_children d' (Objects (Content pu)) w' ic bgr c b lb /\
    objects w !! ic = None /\ objects w !! bgr = None /\
    objects w !! lb = None /\
    objects w' !! lb = Some (new_object (Label_MinSize (title d))) /\
    callback d' = callback d /\ desiredSize d' = desiredSize d.
Proof.
  intros Hc Hpar Hne Hcc Hcb.
  unfold dialog_create, newThemedBackground, alloc_object, NewModalPopUp,
    dialog_Refresh, PopUp_Refresh, PopUp_update.
  simpl. rewrite Hc, Hpar. simpl.
  set (o0 := objects w).
  set (r1 := fresh (dom o0)).
  set (o1 := <[r1 := new_object Rectangle_MinSize]> o0).
  set (r2 := fresh (dom o1)).
  set (o2 := <[r2 := new_object (Label_MinSize (title d))]> o1).
  set (r3 := fresh (dom o2)).
  set (p := fresh (dom (popups w))).
  rewrite lookup_insert_eq. simpl.
  assert (o0 !! r1 = None) as N1 by apply fresh_None.
  assert (o1 !! r2 = None) as N2 by apply fresh_None.
  assert (o2 !! r3 = None) as N3 by apply fresh_None.
  assert (r1 <> r2) as H12
    by (intros E; rewrite <- E in N2; subst o1;
        rewrite lookup_insert_eq in N2; discriminate).
  assert (r2 <> r3) as H23
    by (intros E; rewrite <- E in N3; subst o2;
        rewrite lookup_insert_eq in N3; discriminate).
  assert (o0 !! r2 = None) as N20
    by (subst o1; rewrite lookup_insert_ne in N2 by assumption; exact N2).
  assert (o1 !! r3 = None) as N31
    by (subst o2; rewrite lookup_insert_ne in N3 by assumption; exact N3).
  assert (r1 <> r3) as H13
    by (intros E; rewrite <- E in N31; subst o1;
        rewrite lookup_insert_eq in N31; discriminate).
  assert (o0 !! r3 = None) as N30
    by (subst o1; rewrite lookup_insert_ne in N31 by assumption; exact N31).
  assert (forall r x, o0 !! r = Some x ->
                      r1 <> r /\ r2 <> r /\ r3 <> r) as Hold.
  { intros r x Hr. repeat split; intros <-; congruence. }
  destruct (Hold c cc Hcc) as (H1c & H2c & H3c).
  destruct (Hold b cb Hcb) as (H1b & H2b & H3b).
  eexists _, _, p, _, r3, r1, r2.
  split; [reflexivity|].
  cbn [win set_win set_label set_bg callback desiredSize label bg
       objects popups set_popups set_objects].
  split; [reflexivity|].
  split; [rewrite lookup_insert_eq; reflexivity|].
  cbn [Objects Content].
  split.
  { split; [reflexivity|]. split; [reflexivity|]. split; [reflexivity|]. split.
    - repeat (apply NoDup_cons; split); try apply NoDup_nil_2;
        rewrite ?not_elem_of_cons; repeat split;
        try apply not_elem_of_nil; auto.
    - cbn [objects popups set_popups set_objects]. subst o2 o1 o0.
      repeat (apply Forall_cons; split); try apply Forall_nil_2.
      + rewrite lookup_insert_eq. eauto.
      + rewrite lookup_insert_ne, lookup_insert_ne, lookup_insert_eq by auto.
        eauto.
      + rewrite !lookup_insert_ne by assumption. eauto.
      + rewrite !lookup_insert_ne by assumption. eauto.
      + rewrite lookup_insert_ne, lookup_insert_eq by auto. eauto. }
  split; [exact N30|]. split; [exact N1|]. split; [exact N20|].
  cbn [objects popups set_popups set_objects].
  split; [|split; reflexivity].
  rewrite lookup_insert_ne, lookup_insert_eq by auto. reflexivity.
Qed.

(** X9: [create] gives a dialog the children the layout expects: its
    pop-up holds, in order, a new icon, a new background, the content, the
    buttons and a new label measured from the title and standing at (0,0);
    the five are different objects of the store, and callback and desired
    size are kept. *)
Theorem create_builds_children (d : dialog U) (w : World U) c b par cc cb :
  content d = Some c -> parent d = Some par -> c <> b ->
  objects w !! c = Some cc -> objects w !! b = Some cb ->
  exists d' w' p pu ic bgr lb,
    dialog_create Label_MinSize Image_MinSize Rectangle_MinSize
      PopUp_starts_visible (Some b) d w
      = Some (d', w') /\
    win d' = Some p /\ popups w' !! p = Some pu /\
    documented_children d' (Objects (Content pu)) w' ic bgr c b lb /\
    objects w !! ic = None /\ objects w !! bgr = None /\
    objects w !! lb = None /\
    objects w' !! lb = Some (new_object (Label_MinSize (title d))) /\
    callback d' = callback d /\ desiredSize d' = desiredSize d.
Proof.
  intros Hc Hpar Hne Hcc Hcb.
  exact (create_new_children d w c b par cc cb Hc Hpar Hne Hcc Hcb).
Qed.

(** X10: [create] calls nothing back and disturbs no other pop-up: the
    pop-up it stores in the dialog was not in the store before, every
    pop-up that was there is left as it was, and buttons and application
    state are not touched. *)
Theorem create_only_adds (btns : option ref) (d d' : dialog U)
    (w w' : World U) :
  dialog_create Label_MinSize Image_MinSize Rectangle_MinSize
    PopUp_starts_visible btns d w
    = Some (d', w') ->
  (forall r, is_Some (popups w !! r) -> popups w' !! r = popups w !! r) /\
  (exists p, win d' = Some p /\ popups w !! p = None /\
             is_Some (popups w' !! p)) /\
  buttons w' = buttons w /\ app w' = app w.
Proof.
  unfold dialog_create, newThemedBackground, alloc_object, NewModalPopUp,
    dialog_Refresh, PopUp_Refresh, PopUp_update.
  simpl. destruct (parent d) as [par|]; simpl; [|discriminate].
  rewrite lookup_insert_eq. simpl. intros [= <- <-]. simpl.
  set (p := fresh (dom (popups w))).
  split; [|split].
  - intros r Hr.
    assert (p <> r) as Hne.
    { intros <-. apply elem_of_dom in Hr.
      exact (is_fresh (dom (popups w)) Hr). }
    rewrite !lookup_insert_ne by assumption. reflexivity.
  - exists p. split; [reflexivity|]. split.
    + apply not_elem_of_dom. apply is_fresh.
    + rewrite lookup_insert_eq. eauto.
  - split; reflexivity.
Qed.

(** X11: laid out fresh from [create], the content fills the room between
    the label and the buttons: its height is
    [(button top - padding) - (label minimum height + padHeight)], the label
    standing at [y = 0]. *)
Theorem created_content_fills (d : dialog U) (w : World U) size c b par cc cb :
  content d = Some c -> parent d = Some par -> c <> b ->
  objects w !! c = Some cc -> objects w !! b = Some cb ->
  exists d' w1 p pu w2 btnPos,
    dialog_create Label_MinSize Image_MinSize Rectangle_MinSize
      PopUp_starts_visible (Some b) d w
      = Some (d', w1) /\
    win d' = Some p /\ popups w1 !! p = Some pu /\
    dialogLayout_Layout theme_Padding d' (Objects (Content pu)) size w1
      = Some w2 /\
    CanvasObject_Position (Some b) w2 = Some btnPos /\
    CanvasObject_Size (Some c) w2 =
      Some (fyne.NewSize
              (fyne.Width size - of_Z padWidth)%f32
              ((fyne.Y btnPos - theme_Padding)
               - (fyne.Height (Label_MinSize (title d)) + of_Z padHeight))%f32).
Proof. apply Layout_after_create. Qed.

End Building.

(** ** The renderer of the themed background *)

Section Renderer.
Variable Color : Type.
Variable ToNRGBA : Color -> Z * Z * Z * Z.

(** X12: the last [Refresh] decides the fill colour, whatever was there
    before; [Refresh] and [Layout] do not disturb each other, and neither
    changes the minimum size. *)
Theorem Refresh_and_Layout (c c' : Color) (size : fyne.Size)
    (renderer : themedBackgroundRenderer Color) :
  themedBackgroundRenderer_Refresh ToNRGBA c
    (themedBackgroundRenderer_Refresh ToNRGBA c' renderer)
  = themedBackgroundRenderer_Refresh ToNRGBA c renderer /\
  themedBackgroundRenderer_Layout size
    (themedBackgroundRenderer_Refresh ToNRGBA c renderer)
  = themedBackgroundRenderer_Refresh ToNRGBA c
      (themedBackgroundRenderer_Layout size renderer) /\
  themedBackgroundRenderer_MinSize
    (themedBackgroundRenderer_Layout size
       (themedBackgroundRenderer_Refresh ToNRGBA c renderer))
  = themedBackgroundRenderer_MinSize renderer.
Proof.
  unfold themedBackgroundRenderer_Refresh, themedBackgroundRenderer_Layout,
    themedBackgroundRenderer_MinSize.
  destruct (ToNRGBA c) as [[[r g] b] a], (ToNRGBA c') as [[[r' g'] b'] a'].
  simpl. repeat split.
Qed.

End Renderer.

(** ** What the packager opens, closes and writes *)

Section PackagerLogs.
Import commands.
Variables (Sys error File Response : Type).
Variable perform :
  forall c : Call File Response, Sys -> Sys * @Reply error File Response c.
Variable filepath_Join : string -> string -> string.

Lemma packageGopherJS_runs (p : Packager) (sys : Sys) :
  outcome filepath_Join p
    (snd (fst (packageGopherJS perform filepath_Join p (sys, []))))
    (snd (packageGopherJS perform filepath_Join p (sys, []))).
Proof.
  cbv beta iota zeta delta [packageGopherJS bind do ret defer discard].
  destruct (perform (EnsureSubDir (dir p) "gopherjs") sys) as [s1 appDir].
  destruct (perform (Create (filepath_Join appDir "index.html")) s1)
    as [s2 [f [e|]]]; simpl; [constructor|].
  destruct (perform (Execute f _) s2) as [s3 [e|]]; simpl; [constructor|].
  destruct (perform (CopyFile (icon p) _) s3) as [s4 [e|]]; simpl;
    [constructor|].
  destruct (perform (CopyFile (exe p) _) s4) as [s5 [e|]]; simpl;
    [constructor|].
  destruct (negb (release p)) eqn:Hneg; simpl.
  2: { apply released. apply negb_false_iff, Hneg. }
  assert (release p = false) as Hrel by apply negb_true_iff, Hneg.
  destruct (perform (Get webglDebugURL) s5) as [s6 [r [e|]]]; simpl;
    [apply script_fetch_fails; exact Hrel|].
  destruct (perform (Create (filepath_Join appDir "webgl-debug.js")) s6)
    as [s7 [out [e|]]]; simpl.
  - destruct (perform (CloseBody r) s7) as [s8 c1]; simpl.
    apply script_create_fails. exact Hrel.
  - destruct (perform (Copy out r) s7) as [s8 [n err]]; simpl.
    destruct (perform (CloseFile out) s8) as [s9 c1]; simpl.
    destruct (perform (CloseBody r) s9) as [s10 c2]; simpl.
    apply script_copied_or_not. exact Hrel.
Qed.

Lemma outcome_offline (p : Packager) (log : list (Event error File Response))
    result :
  outcome filepath_Join p log result -> release p = true ->
  Forall (fun e => is_network (call e) = false) log /\
  (length log <= 5)%nat.
Proof.
  inversion 1; subst; intros Hrel; try congruence;
    (split; [repeat constructor|simpl; lia]).
Qed.

(** X13: in release mode the packager never goes to the network, whatever
    fails on the way: no download, no read from a response, and at most the
    five local calls. *)
Theorem release_stays_offline (p : Packager) (sys : Sys) :
  release p = true ->
  let log := snd (fst (packageGopherJS perform filepath_Join p (sys, []))) in
  Forall (fun e => is_network (call e) = false) log /\
  (length log <= 5)%nat.
Proof.
  intros Hrel. exact (outcome_offline p _ _ (packageGopherJS_runs p sys) Hrel).
Qed.

Lemma outcome_handles (p : Packager) (log : list (Event error File Response))
    result :
  outcome filepath_Join p log result ->
  closed_bodies log = opened_bodies log /\
  closed_files log = tail (created_files log).
Proof. inversion 1; subst; split; reflexivity. Qed.

(** X14: every response the download handed out is closed, once, on every
    path, errors included; of the files the run created, every one but the
    first is closed: the script file always, the entry file [index.html]
    never. *)
Theorem handles_closed (p : Packager) (sys : Sys) :
  let log := snd (fst (packageGopherJS perform filepath_Join p (sys, []))) in
  closed_bodies log = opened_bodies log /\
  closed_files log = tail (created_files log).
Proof. exact (outcome_handles p _ _ (packageGopherJS_runs p sys)). Qed.

Lemma outcome_paths (p : Packager) (log : list (Event error File Response))
    result :
  outcome filepath_Join p log result ->
  exists appDir rest,
    log = subdir_ensured p appDir :: rest /\
    written_paths log `prefix_of`
      map (filepath_Join appDir)
        (["index.html"; "icon.png"; name p]
         ++ if release p then [] else ["webgl-debug.js"]).
Proof.
  inversion 1 as [a f e|a f e|a f e|a f e|a f Hrel|a f r e Hrel
                  |a f r out e c1 Hrel|a f r out n err c1 c2 Hrel];
    subst; eexists a, _; (split; [reflexivity|]); simpl; rewrite ?Hrel; simpl.
  - eexists; reflexivity.
  - eexists; reflexivity.
  - eexists; reflexivity.
  - eexists; reflexivity.
  - eexists []; reflexivity.
  - eexists; reflexivity.
  - eexists []; reflexivity.
  - eexists []; reflexivity.
Qed.

(** X15: the first call of every run is [util.EnsureSubDir] with the
    packager's directory and the name [gopherjs], and every path the
    packager writes lies under the directory it answered with: the run
    writes a beginning of [index.html], [icon.png], the executable under
    its own name and, outside release mode, [webgl-debug.js], in this order
    and each at most once. *)
Theorem writes_under_subdir (p : Packager) (sys : Sys) :
  let log := snd (fst (packageGopherJS perform filepath_Join p (sys, []))) in
  exists appDir rest,
    log = {| call := EnsureSubDir (dir p) "gopherjs"; reply := appDir |}
          :: rest /\
    written_paths log `prefix_of`
      map (filepath_Join appDir)
        (["index.html"; "icon.png"; name p]
         ++ if release p then [] else ["webgl-debug.js"]).
Proof. exact (outcome_paths p _ _ (packageGopherJS_runs p sys)). Qed.

Lemma outcome_errors (p : Packager) (log : list (Event error File Response))
    result :
  outcome filepath_Join p log result ->
  omap step_error log = option_list result.
Proof.
  inversion 1; subst; reflexivity.
Qed.

(** X16: the result is the one error any call reported: at most one call
    reports an error, [nil] is returned exactly when none did, and what the
    deferred closes return never reaches the caller. *)
Theorem errors_reported (p : Packager) (sys : Sys) :
  let run := packageGopherJS perform filepath_Join p (sys, []) in
  omap step_error (snd (fst run)) = option_list (snd run).
Proof. exact (outcome_errors p _ _ (packageGopherJS_runs p sys)). Qed.

End PackagerLogs.

(** ** The further properties on the concrete dialog *)

Lemma Layout_last_wins_witness :
  exists w2,
    dialogLayout_Layout (of_Z 4) (example_dialog None) example_children
      example_size (example_world 0 tt) = Some w2 /\
    (w1 ← dialogLayout_Layout (of_Z 4) (example_dialog None) example_children
            (fyne.NewSize (of_Z 640) (of_Z 480)) (example_world 0 tt);
     dialogLayout_Layout (of_Z 4) (example_dialog None) example_children
       example_size w1) = Some w2.
Proof.
  apply (Layout_last_wins (of_Z 4) (example_dialog None) example_children
           (fyne.NewSize (of_Z 640) (of_Z 480)) example_size
           (example_world 0 tt) 0%nat 1%nat 2%nat 3%nat 4%nat).
  example_documented.
Defined.

Lemma Layout_frame_witness :
  exists w',
    dialogLayout_Layout (of_Z 4) (example_dialog None) example_children
      example_size (example_world 10 tt) = Some w' /\
    objects w' !! 4%nat = objects (example_world 10 tt) !! 4%nat /\
    (forall r, r ∉ [0%nat; 1%nat; 2%nat; 3%nat] ->
               objects w' !! r = objects (example_world 10 tt) !! r) /\
    dom (objects w') = dom (objects (example_world 10 tt)) /\
    popups w' = popups (example_world 10 tt) /\
    buttons w' = buttons (example_world 10 tt) /\
    app w' = app (example_world 10 tt).
Proof.
  apply (Layout_frame (of_Z 4) (example_dialog None) example_children
           example_size (example_world 10 tt) 0%nat 1%nat 2%nat 3%nat 4%nat).
  example_documented.
Defined.

Lemma MinSize_too_few_witness :
  dialogLayout_MinSize (of_Z 4) example_Max (example_dialog None)
    [Some 0%nat; Some 1%nat; Some 2%nat; Some 3%nat] (example_world 0 tt)
  = None.
Proof.
  apply (MinSize_too_few (of_Z 4) example_Max (example_dialog None)
           [Some 0%nat; Some 1%nat; Some 2%nat; Some 3%nat]
           (example_world 0 tt)).
  simpl. lia.
Defined.

Lemma Layout_too_few_witness :
  dialogLayout_Layout (of_Z 4) (example_dialog None)
    [Some 0%nat; Some 1%nat; Some 2%nat] example_size (example_world 0 tt)
  = None.
Proof.
  apply (Layout_too_few (of_Z 4) (example_dialog None)
           [Some 0%nat; Some 1%nat; Some 2%nat] example_size
           (example_world 0 tt)).
  simpl. lia.
Defined.

Lemma only_Hide_calls_back_witness :
  app (snd example_quiet_end) = app (example_world 0 [Closed 7]).
Proof.
  apply (only_Hide_calls_back (of_Z 4) example_Max example_quiet_session
           example_start (fst example_quiet_end)
           (example_world 0 [Closed 7]) (snd example_quiet_end)).
  - unfold example_quiet_session. rewrite !not_elem_of_cons.
    repeat split; try discriminate. apply not_elem_of_nil.
  - vm_compute. reflexivity.
Defined.

Lemma Hide_every_time_witness :
  exists w',
    run (of_Z 4) example_Max (repeat OpHide 3) example_start
      (example_world 0 []) = Some (example_start, w') /\
    app w' = app (example_world 0 []) ++ repeat (Callback false) 3.
Proof.
  apply (Hide_every_time (of_Z 4) example_Max 3 example_start
           (example_world 0 []) 0%nat example_popup); reflexivity.
Defined.

Lemma before_create_witness :
  let d := fst example_uncreated in
  let w := snd example_uncreated in
  dialog_Show d w = None /\ dialog_Hide d w = None /\
  dialog_Refresh d w = None /\ dialog_Resize example_size d w = None /\
  dialog_SetDismissText "Close" d w = None /\
  dialog_MinSize (of_Z 4) example_Max d w = None.
Proof.
  apply (before_create (of_Z 4) example_Max (fst example_uncreated)
           (snd example_uncreated) example_size "Close").
  reflexivity.
Defined.

Lemma create_builds_children_witness :
  let w := snd example_uncreated in
  exists d' w' p pu ic bgr lb,
    example_create (fst example_uncreated) w = Some (d', w') /\
    win d' = Some p /\ popups w' !! p = Some pu /\
    documented_children d' (Objects (Content pu)) w' ic bgr 0%nat 1%nat lb /\
    objects w !! ic = None /\ objects w !! bgr = None /\
    objects w !! lb = None /\
    objects w' !! lb
      = Some (new_object (example_Label_MinSize
                            (title (fst example_uncreated)))) /\
    callback d' = callback (fst example_uncreated) /\
    desiredSize d' = desiredSize (fst example_uncreated).
Proof.
  apply (create_builds_children example_Label_MinSize
           (fyne.NewSize (of_Z 1) (of_Z 1)) (fyne.NewSize (of_Z 1) (of_Z 1)) true
           (fst example_uncreated) (snd example_uncreated)
           0%nat 1%nat 0%nat
           (new_object (example_Label_MinSize "Are you sure?"))
           (new_object (fyne.NewSize (of_Z 80) (of_Z 30))));
    try reflexivity.
  discriminate.
Defined.

Lemma create_only_adds_witness :
  let w := snd example_uncreated in
  let d' := fst example_after_create in
  let w' := snd example_after_create in
  (forall r, is_Some (popups w !! r) -> popups w' !! r = popups w !! r) /\
  (exists p, win d' = Some p /\ popups w !! p = None /\
             is_Some (popups w' !! p)) /\
  buttons w' = buttons w /\ app w' = app w.
Proof.
  apply (create_only_adds example_Label_MinSize
           (fyne.NewSize (of_Z 1) (of_Z 1)) (fyne.NewSize (of_Z 1) (of_Z 1)) true
           (Some 1%nat) (fst example_uncreated) (fst example_after_create)
           (snd example_uncreated) (snd example_after_create)).
  vm_compute. reflexivity.
Defined.

Lemma created_content_fills_witness :
  exists d' w1 p pu w2 btnPos,
    example_create (fst example_uncreated) (snd example_uncreated)
      = Some (d', w1) /\
    win d' = Some p /\ popups w1 !! p = Some pu /\
    dialogLayout_Layout (of_Z 4) d' (Objects (Content pu)) example_size w1
      = Some w2 /\
    CanvasObject_Position (Some 1%nat) w2 = Some btnPos /\
    CanvasObject_Size (Some 0%nat) w2 =
      Some (fyne.NewSize
              (fyne.Width example_size - of_Z padWidth)%f32
              ((fyne.Y btnPos - of_Z 4)
               - (fyne.Height
                    (example_Label_MinSize (title (fst example_uncreated)))
                  + of_Z padHeight))%f32).
Proof.
  apply (created_content_fills (of_Z 4) example_Label_MinSize
           (fyne.NewSize (of_Z 1) (of_Z 1)) (fyne.NewSize (of_Z 1) (of_Z 1)) true
           (fst example_uncreated) (snd example_uncreated) example_size
           0%nat 1%nat 0%nat
           (new_object (example_Label_MinSize "Are you sure?"))
           (new_object (fyne.NewSize (of_Z 80) (of_Z 30))));
    try reflexivity.
  discriminate.
Defined.

Lemma release_stays_offline_witness :
  let log :=
    snd (fst (commands.packageGopherJS commands.example_perform
                commands.example_Join (commands.example_packager true)
                (["out/gopherjs/icon.png"], []))) in
  Forall (fun e => is_network (commands.call e) = false) log /\
  (length log <= 5)%nat.
Proof.
  apply (release_stays_offline (list string) string string string
           commands.example_perform commands.example_Join
           (commands.example_packager true) ["out/gopherjs/icon.png"]).
  reflexivity.
Defined.

(** In debug mode, with the script file unwritable, the response is still
    closed, and no file is. *)
Example package_script_broken :
  let log :=
    snd (fst (commands.packageGopherJS commands.example_perform
                commands.example_Join (commands.example_packager false)
                (["out/gopherjs/webgl-debug.js"], []))) in
  opened_bodies log = [commands.webglDebugURL] /\
  closed_bodies log = [commands.webglDebugURL] /\
  created_files log = ["out/gopherjs/index.html"] /\
  closed_files log = [].
Proof. vm_compute. repeat split. Qed.
